(** * picsort: identity tracking, date resolution and placement

    A shallow embedding of [picsort.py].  The program scans source
    folders, registers every regular file under the key (SHA-1 digest,
    size), derives a date from the file name (videos) or from the EXIF
    tag [DateTimeOriginal] (everything else) and renames the file into
    [library/year\month\day/], inserting [-1], [-2], ... before the
    extension when the name is taken by different content.

    A Python [str] (a file name, a path, the value of a tag) is kept as
    the bytes of its UTF-8 encoding, which is also what a Rocq string
    literal holds; the classes [\d] and [\s] of [re] read the code point
    at the head of such a string and look it up in the tables of Unicode
    14.0, the database of CPython 3.11.  The logger calls do not influence
    the state and are left out; instead every function returns a
    constructor naming the branch it left through. *)

From Stdlib Require Import Ascii String.
From stdpp Require Import gmap strings list fin_maps pretty.

Local Open Scope string_scope.

(** ** Strings *)

Module Str.

Definition byte (c : ascii) : N := N_of_ascii c.

(** A continuation byte of UTF-8. *)
Definition cont (c : ascii) : bool :=
  ((128 <=? byte c) && (byte c <? 192))%N.

(** The character at the head of [s]: its code point, the bytes that
    encode it and the rest of [s].  [None] when [s] is empty or does not
    begin with well-formed UTF-8 (no overlong forms, no surrogates, nothing
    above U+10FFFF): such a byte is a character of its own to Python, one
    that is no digit and no whitespace. *)
Definition decode1 (s : string) : option (N * string * string) :=
  match s with
  | "" => None
  | String c0 s0 =>
      let b0 := byte c0 in
      if (b0 <? 128)%N then Some (b0, String c0 "", s0)
      else if ((194 <=? b0) && (b0 <? 224))%N then
        match s0 with
        | String c1 s1 =>
            if cont c1
            then Some (((b0 - 192) * 64 + (byte c1 - 128))%N,
                       String c0 (String c1 ""), s1)
            else None
        | _ => None
        end
      else if ((224 <=? b0) && (b0 <? 240))%N then
        match s0 with
        | String c1 (String c2 s2) =>
            let cp := ((b0 - 224) * 4096 + (byte c1 - 128) * 64
                       + (byte c2 - 128))%N in
            if cont c1 && cont c2 && (2048 <=? cp)%N
               && negb ((55296 <=? cp) && (cp <=? 57343))%N
            then Some (cp, String c0 (String c1 (String c2 "")), s2)
            else None
        | _ => None
        end
      else if ((240 <=? b0) && (b0 <? 245))%N then
        match s0 with
        | String c1 (String c2 (String c3 s3)) =>
            let cp := ((b0 - 240) * 262144 + (byte c1 - 128) * 4096
                       + (byte c2 - 128) * 64 + (byte c3 - 128))%N in
            if cont c1 && cont c2 && cont c3 && (65536 <=? cp)%N
               && (cp <=? 1114111)%N
            then Some (cp, String c0 (String c1 (String c2 (String c3 ""))),
                       s3)
            else None
        | _ => None
        end
      else None
  end.

Definition in_ranges (table : list (N * N)) (cp : N) : bool :=
  existsb (fun r => ((r.1 <=? cp) && (cp <=? r.2))%N) table.

(** The decimal digits of Unicode 14.0 (category Nd), as ranges of code
    points: what [\d] of a [str] pattern matches. *)
Definition decimal_digits : list (N * N) :=
  [(48, 57); (1632, 1641); (1776, 1785); (1984, 1993); (2406, 2415);
   (2534, 2543); (2662, 2671); (2790, 2799); (2918, 2927); (3046, 3055);
   (3174, 3183); (3302, 3311); (3430, 3439); (3558, 3567); (3664, 3673);
   (3792, 3801); (3872, 3881); (4160, 4169); (4240, 4249); (6112, 6121);
   (6160, 6169); (6470, 6479); (6608, 6617); (6784, 6793); (6800, 6809);
   (6992, 7001); (7088, 7097); (7232, 7241); (7248, 7257); (42528, 42537);
   (43216, 43225); (43264, 43273); (43472, 43481); (43504, 43513);
   (43600, 43609); (44016, 44025); (65296, 65305); (66720, 66729);
   (68912, 68921); (69734, 69743); (69872, 69881); (69942, 69951);
   (70096, 70105); (70384, 70393); (70736, 70745); (70864, 70873);
   (71248, 71257); (71360, 71369); (71472, 71481); (71904, 71913);
   (72016, 72025); (72784, 72793); (73040, 73049); (73120, 73129);
   (92768, 92777); (92864, 92873); (93008, 93017); (120782, 120831);
   (123200, 123209); (123632, 123641); (125264, 125273); (130032, 130041)]%N.

(** The whitespace of Unicode 14.0 as [str.isspace] has it: what [\s] of
    a [str] pattern matches. *)
Definition whitespace : list (N * N) :=
  [(9, 13); (28, 32); (133, 133); (160, 160); (5760, 5760); (8192, 8202);
   (8232, 8233); (8239, 8239); (8287, 8287); (12288, 12288)]%N.

Definition is_digit (cp : N) : bool := in_ranges decimal_digits cp.

Definition is_space (cp : N) : bool := in_ranges whitespace cp.

(** One character of the class [p] at the head of [s]: its bytes and the
    rest of [s]. *)
Definition one (p : N → bool) (s : string) : option (string * string) :=
  match decode1 s with
  | Some (cp, c, r) => if p cp then Some (c, r) else None
  | None => None
  end.

(** [lit p s]: the literal [p] at the head of [s]; the rest of [s]. *)
Fixpoint lit (p s : string) : option string :=
  match p with
  | "" => Some s
  | String a p' =>
      match s with
      | String b s' => if decide (a = b) then lit p' s' else None
      | "" => None
      end
  end.

(** [digits n s]: [\d{n}] at the head of [s]; the digits and the rest. *)
Fixpoint digits (n : nat) (s : string) : option (string * string) :=
  match n with
  | 0 => Some ("", s)
  | S n' =>
      match one is_digit s with
      | Some (c, s') =>
          match digits n' s' with
          | Some (d, r) => Some (c +:+ d, r)
          | None => None
          end
      | None => None
      end
  end.

(** [\d*], greedy: at most [fuel] digits are passed over. *)
Fixpoint skip_digits_go (fuel : nat) (s : string) : string :=
  match fuel with
  | 0 => s
  | S fuel' =>
      match one is_digit s with
      | Some (_, s') => skip_digits_go fuel' s'
      | None => s
      end
  end.

(** A digit takes at least one byte, so as many turns as [s] has bytes
    pass over every digit at its head. *)
Definition skip_digits (s : string) : string :=
  skip_digits_go (String.length s) s.

(** [\d+], greedy.  What follows it in the video pattern is a literal
    dot, which is no digit, so giving digits back never helps and the
    greedy choice is the only one the backtracking matcher can end on. *)
Definition digits1 (s : string) : option string :=
  match one is_digit s with
  | Some (_, s') => Some (skip_digits s')
  | None => None
  end.

(** [\s]: one whitespace character. *)
Definition space (s : string) : option string :=
  match one is_space s with
  | Some (_, s') => Some s'
  | None => None
  end.

(** [$] without MULTILINE: the end of the string, or just before a
    line feed that ends the string. *)
Definition at_end (s : string) : bool :=
  bool_decide (s = "") || bool_decide (s = String "010"%char "").

Definition startswith (s p : string) : bool :=
  match lit p s with Some _ => true | None => false end.

(** [s.endswith(suf)]: some tail of [s] is [suf]. *)
Fixpoint endswith (s suf : string) : bool :=
  if decide (s = suf) then true
  else match s with
       | String _ s' => endswith s' suf
       | "" => false
       end.

(** [s.split(sep)] for a one-character separator: never empty. *)
Fixpoint split (sep : ascii) (s : string) : list string :=
  match s with
  | "" => [""]
  | String c s' =>
      if decide (c = sep) then "" :: split sep s'
      else match split sep s' with
           | h :: t => String c h :: t
           | [] => [String c ""]
           end
  end.

(** Truth value of a [str]: the empty string is false. *)
Definition truthy (s : string) : bool := negb (bool_decide (s = "")).

End Str.

(** ** The two regular expressions *)

(** The groups the program reads from a match.  [dateregex] also has
    the groups hour, minute and seconds; they are matched below but no
    statement of the program reads them. *)
Record groupdict := { year : string; month : string; day : string }.

(** [re.match(r"VID_(?P<year>\d{4})(?P<month>\d{2})(?P<day>\d{2})_\d+\.mp4", filename)]:
    anchored at the start only. *)
Definition vidregex_match (filename : string) : option groupdict :=
  s ← Str.lit "VID_" filename;
  '(y, s) ← Str.digits 4 s;
  '(m, s) ← Str.digits 2 s;
  '(d, s) ← Str.digits 2 s;
  s ← Str.lit "_" s;
  s ← Str.digits1 s;
  _ ← Str.lit ".mp4" s;
  Some {| year := y; month := m; day := d |}.

(** [dateregex.match(value)] for
    [^(\d{4}):(\d{2}):(\d{2})\s(\d{2}):(\d{2}):(\d{2})$]. *)
Definition dateregex_match (value : string) : option groupdict :=
  '(y, s) ← Str.digits 4 value;
  s ← Str.lit ":" s;
  '(m, s) ← Str.digits 2 s;
  s ← Str.lit ":" s;
  '(d, s) ← Str.digits 2 s;
  s ← Str.space s;
  '(_, s) ← Str.digits 2 s;
  s ← Str.lit ":" s;
  '(_, s) ← Str.digits 2 s;
  s ← Str.lit ":" s;
  '(_, s) ← Str.digits 2 s;
  if Str.at_end s then Some {| year := y; month := m; day := d |} else None.

(** ** The file system and the state of a run *)

(** A regular file: its bytes and the modification time [os.stat]
    reports for it, of which only equality is ever used. *)
Record file := { content : string; mtime : Z }.

Inductive node := Regular (f : file) | Directory.

(** Paths to nodes. *)
Abbreviation FS := (gmap string node).

(** An identity key: (SHA-1 digest, size in bytes). *)
Abbreviation fileid := (string * nat)%type.

(** The module globals [hashes] and [copycount], and the file system
    they act on. *)
Record State := {
  fs : FS;
  hashes : gmap fileid string;
  copycount : nat
}.

Definition set_fs (st : State) (x : FS) : State :=
  {| fs := x; hashes := hashes st; copycount := copycount st |}.

Definition set_hashes (st : State) (h : gmap fileid string) : State :=
  {| fs := fs st; hashes := h; copycount := copycount st |}.

(** [hashes = {}] and [copycount = 0] when the module is loaded. *)
Definition initial (x : FS) : State :=
  {| fs := x; hashes := ∅; copycount := 0 |}.

(** What lies outside the program: the platform's [os.path.join] and
    [os.path.split], the directory listings, the digest, the EXIF reader
    (the value of the tag [EXIF DateTimeOriginal] found in the bytes of a
    file, if any) and the operating system's verdict on each [open],
    [os.mkdir] and [os.rename]. *)
Record World := {
  os_path_join : string → string → string;
  os_path_split : string → string * string;
  os_listdir : FS → string → option (list string);
  os_walk : FS → string → list string;
  sha1 : string → string;
  exif_DateTimeOriginal : string → option string;
  may_open : string → bool;
  may_mkdir : FS → string → bool;
  may_rename : FS → string → string → bool
}.

(** Exceptions no handler of the program catches.  [LoopBound] is not
    one of Python's: it marks the bound put on [while True] in
    [copyfile] below, which [copyfile_loop_bound] shows is not reached. *)
Inductive Exn := OSError | IndexError | LoopBound.

Inductive Res (A : Type) :=
  | Ok (a : A) (st : State)
  | Raise (e : Exn) (st : State).
Arguments Ok {A} a st.
Arguments Raise {A} e st.

Definition M (A : Type) : Type := State → Res A.

Definition ret {A} (a : A) : M A := fun st => Ok a st.

Definition bind {A B} (c : M A) (k : A → M B) : M B := fun st =>
  match c st with
  | Ok a st' => k a st'
  | Raise e st' => Raise e st'
  end.

Notation "'let*' x := c 'in' k" := (bind c (fun x => k))
  (at level 10, x name, c at level 100, k at level 200, only parsing).

(** The branch a file left the pipeline through. *)
Inductive Registered := Unique | Duplicate (existing : string).

Inductive Placement :=
  | Moved (finalpath : string)
  | RenamedMoved (finalpath : string)
  | SkippedIdentical (existing : string)
  | MoveError (target : string)
  | CreateError (directory : string).

Inductive Terminal :=
  | NotRegular
  | DuplicateSkipped (existing : string)
  | MissingSkipped
  | Placed (p : Placement).

(** How the [while True] of [copyfile] is left. *)
Inductive Search :=
  | Free (librarypath : string) (i : nat)
  | Same (librarypath : string)
  | Fault (e : Exn).

(** How [os.mkdir] and [os.makedirs] end, and the file system they
    leave: done, [FileExistsError], or another [OSError]. *)
Inductive Made :=
  | MkDone (x : FS)
  | MkExists (x : FS)
  | MkFailed (x : FS).

Definition made_fs (m : Made) : FS :=
  match m with MkDone x | MkExists x | MkFailed x => x end.

(** The parsed command line. *)
Record Args := { recursive : bool; folders : list string; library : string }.

(** [return -1], or the two numbers of the closing log line. *)
Inductive Exit := Refused | Summary (unique copied : nat).

(** ** The program *)

Section Program.

Context (W : World).

(** No file system entry has the empty path. *)
Definition stat (x : FS) (path : string) : option node :=
  if decide (path = "") then None else x !! path.

Definition os_path_exists (x : FS) (path : string) : bool :=
  match stat x path with Some _ => true | None => false end.

Definition os_path_isfile (x : FS) (path : string) : bool :=
  match stat x path with Some (Regular _) => true | _ => false end.

(** [open(path, 'rb')] and reading to the end; [None] is an [OSError]. *)
Definition open_rb (x : FS) (path : string) : option string :=
  match stat x path with
  | Some (Regular f) => if may_open W path then Some (content f) else None
  | _ => None
  end.

(** [os.mkdir]. *)
Definition os_mkdir (x : FS) (name : string) : Made :=
  if os_path_exists x name then MkExists x
  else if decide (name = "") then MkFailed x
  else if may_mkdir W x name then MkDone (<[name := Directory]> x)
  else MkFailed x.

(** [head, tail = path.split(name)], and once more on [head] when
    [tail] is empty. *)
Definition split_last (name : string) : string * string :=
  let '(head, tail) := os_path_split W name in
  if decide (tail = "") then os_path_split W head else (head, tail).

(** [os.makedirs(name)], [exist_ok] being false: the head of the path is
    made first when it is missing, a [FileExistsError] from that is passed
    over, any other error is raised with the directories made so far left
    behind; then the directory itself is made, unless its last component
    is the current directory.  [fuel] bounds the depth of the recursion. *)
Fixpoint os_makedirs_go (fuel : nat) (x : FS) (name : string) : Made :=
  match fuel with
  | 0 => MkFailed x
  | S fuel' =>
      let '(head, tail) := split_last name in
      if negb (bool_decide (head = "")) && negb (bool_decide (tail = ""))
         && negb (os_path_exists x head)
      then
        match os_makedirs_go fuel' x head with
        | MkFailed x' => MkFailed x'
        | MkDone x' | MkExists x' =>
            if decide (tail = ".") then MkDone x' else os_mkdir x' name
        end
      else os_mkdir x name
  end.

(** Where the head [os.path.split] returns is shorter than the path, as
    that of [posixpath.split] is ([posix_split_shorter]), the recursion
    ends before a depth of one more than the path has bytes
    ([os_makedirs_fuel]). *)
Definition os_makedirs (x : FS) (name : string) : Made :=
  os_makedirs_go (S (String.length name)) x name.

Definition os_rename (x : FS) (src dst : string) : option FS :=
  match stat x src with
  | Some n =>
      if decide (dst = "") then None
      else if may_rename W x src dst then Some (<[dst := n]> (delete src x))
      else None
  | None => None
  end.

(** [hashfile]: [Unique] is [result = True]; [Duplicate d] is
    [result = False], with the path [d] the error line names.  Reading
    in chunks of 1024 bytes feeds the digest the whole content. *)
Definition hashfile (filename : string) : M Registered := fun st =>
  match open_rb (fs st) filename with
  | None => Raise OSError st
  | Some data =>
      let fileid := (sha1 W data, String.length data) in
      match hashes st !! fileid with
      | Some duplicate =>
          if Str.truthy duplicate then Ok (Duplicate duplicate) st
          else Ok Unique (set_hashes st (<[fileid := filename]> (hashes st)))
      | None => Ok Unique (set_hashes st (<[fileid := filename]> (hashes st)))
      end
  end.

(** The signature [filecmp] takes from [os.stat] for a regular file. *)
Definition sig (f : file) : nat * Z := (String.length (content f), mtime f).

(** [filecmp.cmp(f1, f2)], with its default [shallow=True]: equal
    signatures are taken for equal files without reading them.  [None]
    is an [OSError] from [os.stat] or [open].  The module's cache, which
    replays the outcome for the same two paths and signatures, is left out. *)
Definition filecmp_cmp (x : FS) (f1 f2 : string) : option bool :=
  match stat x f1, stat x f2 with
  | Some (Regular a), Some (Regular b) =>
      if decide (sig a = sig b) then Some true
      else if decide (String.length (content a) ≠ String.length (content b))
      then Some false
      else if may_open W f1 && may_open W f2
      then Some (bool_decide (content a = content b))
      else None
  | Some _, Some _ => Some false
  | _, _ => None
  end.

Definition comparefiles (x : FS) (file1 file2 : string) : option bool :=
  filecmp_cmp x file1 file2.

Definition validatedirectory (directory : string) (st : State) : bool * State :=
  if os_path_exists (fs st) directory then (true, st)
  else match os_makedirs (fs st) directory with
       | MkDone x => (true, set_fs st x)
       | MkExists x | MkFailed x => (false, set_fs st x)
       end.

(** ['{0}-{1}.{2}'.format(newfilename[0], i, newfilename[1])] *)
Definition renamed (base : string) (i : nat) (ext : string) : string :=
  base +:+ "-" +:+ pretty i +:+ "." +:+ ext.

(** The [while True] of [copyfile], unfolded at most [fuel] times.  The
    loop only reads the file system. *)
Fixpoint copyfile_loop (fuel : nat) (x : FS)
    (absolutepath filename library librarypath : string) (i : nat) : Search :=
  match fuel with
  | 0 => Fault LoopBound
  | S fuel' =>
      if os_path_exists x librarypath then
        match comparefiles x absolutepath librarypath with
        | None => Fault OSError
        | Some true => Same librarypath
        | Some false =>
            let newfilename := Str.split "." filename in
            match newfilename !! 0, newfilename !! 1 with
            | Some base, Some ext =>
                copyfile_loop fuel' x absolutepath filename library
                  (os_path_join W library (renamed base i ext)) (S i)
            | _, _ => Fault IndexError
            end
        end
      else Free librarypath i
  end.

(** [copyfile]; its last parameter only feeds a log line.  The loop gets
    two turns more than the file system has entries, which is more than
    it can use ([copyfile_loop_bound]). *)
Definition copyfile (absolutepath filename library librarypath : string)
    : M Placement := fun st =>
  match validatedirectory library st with
  | (false, st) => Ok (CreateError library) st
  | (true, st) =>
      match copyfile_loop (S (S (size (fs st)))) (fs st) absolutepath filename
              library (os_path_join W library filename) 1 with
      | Fault e => Raise e st
      | Same p => Ok (SkippedIdentical p) st
      | Free p i =>
          match os_rename (fs st) absolutepath p with
          | Some x =>
              Ok (if decide (i = 1) then Moved p else RenamedMoved p)
                 {| fs := x; hashes := hashes st;
                    copycount := S (copycount st) |}
          | None => Ok (MoveError p) st
          end
      end
  end.

(** ['{0}\\{1}\\{2}'.format(year, month, day)] *)
Definition date_path (metadata : groupdict) : string :=
  year metadata +:+ "\" +:+ month metadata +:+ "\" +:+ day metadata.

Definition copyimage (absolutepath filename library : string)
    (metadata : groupdict) : M Placement :=
  let librarypath := date_path metadata in
  let library := os_path_join W library librarypath in
  copyfile absolutepath filename library librarypath.

Definition copyvideo (absolutepath filename library : string) : M Terminal :=
  match vidregex_match filename with
  | None => ret MissingSkipped
  | Some metadata =>
      let librarypath := date_path metadata in
      let library := os_path_join W library librarypath in
      let* p := copyfile absolutepath filename library librarypath in
      ret (Placed p)
  end.

(** The [metadata] of [importfolder]: the groups of [dateregex] on the
    tag's value; [None] is the empty dict. *)
Definition image_metadata (tag : option string) : option groupdict :=
  match tag with
  | Some value => dateregex_match value
  | None => None
  end.

(** The end of the loop body of [importfolder], for what is no [.mp4]. *)
Definition import_image (absolutepath item library : string) : M Terminal :=
  fun st =>
  match open_rb (fs st) absolutepath with
  | None => Raise OSError st
  | Some imagebuf =>
      match image_metadata (exif_DateTimeOriginal W imagebuf) with
      | Some metadata =>
          (let* p := copyimage absolutepath item library metadata in
           ret (Placed p)) st
      | None => Ok MissingSkipped st
      end
  end.

(** The loop body of [importfolder]. *)
Definition import_item (directory library item : string) : M Terminal :=
  fun st =>
  let absolutepath := os_path_join W directory item in
  if negb (os_path_isfile (fs st) absolutepath) then Ok NotRegular st
  else
    match hashfile absolutepath st with
    | Raise e st => Raise e st
    | Ok (Duplicate d) st => Ok (DuplicateSkipped d) st
    | Ok Unique st =>
        if Str.endswith item ".mp4" then copyvideo absolutepath item library st
        else import_image absolutepath item library st
    end.

Fixpoint import_items (directory library : string) (items : list string)
    : M (list Terminal) :=
  match items with
  | [] => ret []
  | item :: rest =>
      let* t := import_item directory library item in
      let* ts := import_items directory library rest in
      ret (t :: ts)
  end.

Definition importfolder (directory library : string) : M (list Terminal) :=
  fun st =>
  match os_listdir W (fs st) directory with
  | None => Raise OSError st
  | Some items => import_items directory library items st
  end.

Fixpoint import_roots (library : string) (roots : list string)
    : M (list Terminal) :=
  match roots with
  | [] => ret []
  | root :: rest =>
      let* ts := importfolder root library in
      let* ts' := import_roots library rest in
      ret (ts ++ ts')%list
  end.

(** The last loop of [main]; the roots [os.walk] yields are taken as a
    list when the folder is entered. *)
Fixpoint import_folders (args : Args) (directories : list string)
    : M (list Terminal) :=
  match directories with
  | [] => ret []
  | directory :: rest =>
      let* ts :=
        (if recursive args
         then fun st => import_roots (library args)
                          (os_walk W (fs st) directory) st
         else importfolder directory (library args)) in
      let* ts' := import_folders args rest in
      ret (ts ++ ts')%list
  end.

(** [main] from the parsed command line on.  [parse_args] leaves the
    program by itself when no folder is given ([nargs='+'],
    [required=True]), so that the first test below finds a folder on every
    command line. *)
Definition main (args : Args) : M (list Terminal * Exit) := fun st =>
  if decide (folders args = []) then Ok ([], Refused) st
  else if negb (forallb (os_path_exists (fs st)) (folders args))
  then Ok ([], Refused) st
  else
    (let* ts := import_folders args (folders args) in
     fun st => Ok (ts, Summary (size (hashes st)) (copycount st)) st) st.

End Program.

(** The state a computation ends in, also when it raises. *)
Definition res_state {A} (r : Res A) : State :=
  match r with Ok _ st => st | Raise _ st => st end.

(** ** Declarative readings of the two patterns *)

(** [d] is [n] decimal digits, one after the other, each the encoding
    of one digit. *)
Fixpoint is_digits (n : nat) (d : string) : Prop :=
  match n with
  | 0 => d = ""
  | S n' =>
      ∃ c d', d = c +:+ d' ∧ Str.one Str.is_digit c = Some (c, "")
              ∧ is_digits n' d'
  end.

Definition is_date (g : groupdict) : Prop :=
  is_digits 4 (year g) ∧ is_digits 2 (month g) ∧ is_digits 2 (day g).

(** One digit or more. *)
Definition is_number (n : string) : Prop :=
  ∃ k, (1 ≤ k)%nat ∧ is_digits k n.

Definition two_digits (n : string) : Prop := is_digits 2 n.

(** [sp] is one whitespace character. *)
Definition one_space (sp : string) : Prop :=
  Str.one Str.is_space sp = Some (sp, "").

(** What the video pattern accepts: the name begins with [VID_], eight
    digits, an underscore, a number and [.mp4]; anything may follow. *)
Definition video_name (g : groupdict) (filename : string) : Prop :=
  is_date g ∧
  ∃ n rest, is_number n ∧
    filename = "VID_" +:+ year g +:+ month g +:+ day g +:+ "_" +:+ n
               +:+ ".mp4" +:+ rest.

(** What [dateregex] accepts: the separator between date and time is any
    one whitespace character, and a single line feed may end the value. *)
Definition date_value (g : groupdict) (value : string) : Prop :=
  is_date g ∧
  ∃ sp hh mi ss tail,
    one_space sp ∧ two_digits hh ∧ two_digits mi ∧ two_digits ss
    ∧ (tail = "" ∨ tail = String "010"%char "")
    ∧ value = year g +:+ ":" +:+ month g +:+ ":" +:+ day g
              +:+ sp +:+ hh +:+ ":" +:+ mi +:+ ":" +:+ ss +:+ tail.

(** ** The patterns in the words of the specification *)

(** An extension: a non-empty run of characters other than the dot. *)
Definition spec_is_ext (ext : string) : bool :=
  negb (bool_decide (ext = ""))
  && forallb (fun c => negb (bool_decide (c = "."%char)))
       (list_ascii_of_string ext).

(** [VID_<8-digit-date>_<numeric-suffix>.<ext>], the eight digits read
    as YYYYMMDD; the whole name has this shape. *)
Definition spec_video_shape (filename : string) : option groupdict :=
  s ← Str.lit "VID_" filename;
  '(y, s) ← Str.digits 4 s;
  '(m, s) ← Str.digits 2 s;
  '(d, s) ← Str.digits 2 s;
  s ← Str.lit "_" s;
  s ← Str.digits1 s;
  ext ← Str.lit "." s;
  if spec_is_ext ext then Some {| year := y; month := m; day := d |} else None.

(** [YYYY:MM:DD HH:MM:SS], exactly: one space, nothing after the seconds. *)
Definition spec_date_pattern (value : string) : option groupdict :=
  '(y, s) ← Str.digits 4 value;
  s ← Str.lit ":" s;
  '(m, s) ← Str.digits 2 s;
  s ← Str.lit ":" s;
  '(d, s) ← Str.digits 2 s;
  s ← Str.lit " " s;
  '(_, s) ← Str.digits 2 s;
  s ← Str.lit ":" s;
  '(_, s) ← Str.digits 2 s;
  s ← Str.lit ":" s;
  '(_, s) ← Str.digits 2 s;
  if decide (s = "") then Some {| year := y; month := m; day := d |} else None.

(** ** A POSIX world for the examples *)

(** [posixpath.join] of two components. *)
Definition posixpath_join (a b : string) : string :=
  if Str.startswith b "/" then b
  else if bool_decide (a = "") || Str.endswith a "/" then a +:+ b
  else a +:+ "/" +:+ b.

(** [(p[:i], p[i:])] for [i = p.rfind('/') + 1]. *)
Fixpoint cut_last_slash (p : string) : string * string :=
  match p with
  | "" => ("", "")
  | String c p' =>
      let '(h, t) := cut_last_slash p' in
      if decide (h = "") then
        if decide (c = "/"%char) then (String c "", p') else ("", String c p')
      else (String c h, t)
  end.

(** [s.rstrip('/')] *)
Fixpoint rstrip_slash (s : string) : string :=
  match s with
  | "" => ""
  | String c s' =>
      let r := rstrip_slash s' in
      if decide (r = "") then
        if decide (c = "/"%char) then "" else String c ""
      else String c r
  end.

(** [s == '/' * len(s)] *)
Fixpoint all_slash (s : string) : bool :=
  match s with
  | "" => true
  | String c s' => bool_decide (c = "/"%char) && all_slash s'
  end.

(** [posixpath.split] *)
Definition posixpath_split (p : string) : string * string :=
  let '(head, tail) := cut_last_slash p in
  (if negb (bool_decide (head = "")) && negb (all_slash head)
   then rstrip_slash head else head, tail).

(** [s] up to its first [sep], all of [s] if there is none. *)
Fixpoint before (sep : ascii) (s : string) : string :=
  match s with
  | "" => ""
  | String c s' => if decide (c = sep) then "" else String c (before sep s')
  end.

(** The examples keep the tag's value in the file itself, between [Exif:]
    and the first bar. *)
Definition exif_of_bytes (data : string) : option string :=
  s ← Str.lit "Exif:" data; Some (before "|" s).

(** A POSIX machine: [listing] gives the entries of each directory in the
    order [os.listdir] returns them, the files in [locked] cannot be opened,
    every [os.mkdir] and [os.rename] succeeds, and the identity stands
    for the digest (it has no collisions). *)
Definition posix (listing : string → option (list string))
    (locked : list string) : World :=
  {| os_path_join := posixpath_join;
     os_path_split := posixpath_split;
     os_listdir := fun _ d => listing d;
     os_walk := fun _ d => [d];
     sha1 := fun data => data;
     exif_DateTimeOriginal := exif_of_bytes;
     may_open := fun p => bool_decide (p ∉ locked);
     may_mkdir := fun _ _ => true;
     may_rename := fun _ _ _ => true |}.

Definition only (d : string) (items : list string) (q : string)
    : option (list string) :=
  if decide (q = d) then Some items else None.

Definition TAB : string := String "009"%char "".

(** ** Reading a trace *)

(** The file reached [Moved] or [RenamedMoved]: its rename succeeded. *)
Definition moved (t : Terminal) : bool :=
  match t with
  | Placed (Moved _) | Placed (RenamedMoved _) => true
  | _ => false
  end.

(** [hashfile] returned [True] for the file: its key went into [hashes]. *)
Definition registered (t : Terminal) : bool :=
  match t with
  | MissingSkipped | Placed _ => true
  | NotRegular | DuplicateSkipped _ => false
  end.

Definition tally (f : Terminal → bool) (ts : list Terminal) : nat :=
  length (List.filter f ts).

(** Every path in the registry is a non-empty string, hence true as a
    Python value: [if duplicate:] then tests presence. *)
Definition registry_ok (st : State) : Prop :=
  ∀ k p, hashes st !! k = Some p → p ≠ "".

(** The identity key of a content. *)
Definition key_of (W : World) (data : string) : fileid :=
  (sha1 W data, String.length data).

Definition b2n (b : bool) : nat := if b then 1 else 0.

(** What one file may do to the state: the registry only grows and stays
    well formed; it gains one key exactly when the file is registered; the
    counter gains one exactly when the file is moved; and unless the file
    is moved every entry of the file system stays as it is. *)
Definition step_ok (st : State) (r : Res Terminal) : Prop :=
  let st' := res_state r in
  hashes st ⊆ hashes st' ∧ registry_ok st' ∧
  match r with
  | Ok t _ =>
      size (hashes st') = size (hashes st) + b2n (registered t)
      ∧ copycount st' = copycount st + b2n (moved t)
      ∧ (moved t = false → fs st ⊆ fs st')
  | Raise _ _ => copycount st' = copycount st ∧ fs st ⊆ fs st'
  end.

(** What placing a registered file may do: the registry is not touched. *)
Definition place_ok (st : State) (r : Res Terminal) : Prop :=
  let st' := res_state r in
  hashes st' = hashes st ∧
  match r with
  | Ok t _ =>
      registered t = true
      ∧ copycount st' = copycount st + b2n (moved t)
      ∧ (moved t = false → fs st ⊆ fs st')
  | Raise _ _ => copycount st' = copycount st ∧ fs st ⊆ fs st'
  end.

(** [x'] is [x] with directories added at paths that were free. *)
Definition dirs_added (x x' : FS) : Prop :=
  x ⊆ x' ∧ ∀ q n, x' !! q = Some n → x !! q = None → n = Directory.

(** What the states before and after one file show of its outcome [t].
    A file that is moved was a regular file at some path; directories may
    have been added; then its entry, bytes and modification time, went
    from that path to the path the outcome names, which was free, and the
    counter went up by one.  With any other outcome the file system has
    gained directories at most and the counter is as it was.  A file that
    is registered was a regular file whose key was not in the registry,
    and the registry has gained that key with the file's path; with any
    other outcome the registry is as it was. *)
Definition effect (W : World) (st : State) (t : Terminal) (st' : State)
    : Prop :=
  (if moved t then
     ∃ src f p x1,
       (t = Placed (Moved p) ∨ t = Placed (RenamedMoved p))
       ∧ fs st !! src = Some (Regular f)
       ∧ dirs_added (fs st) x1 ∧ x1 !! p = None
       ∧ fs st' = <[p := Regular f]> (delete src x1)
       ∧ copycount st' = S (copycount st)
   else dirs_added (fs st) (fs st') ∧ copycount st' = copycount st)
  ∧ (if registered t then
       ∃ src f,
         fs st !! src = Some (Regular f)
         ∧ hashes st !! key_of W (content f) = None
         ∧ hashes st' = <[key_of W (content f) := src]> (hashes st)
     else hashes st' = hashes st).

(** The outcomes [ts], one after the other, lead from [st] to [st'], each
    with its effect. *)
Fixpoint follows (W : World) (st : State) (ts : list Terminal) (st' : State)
    : Prop :=
  match ts with
  | [] => st' = st
  | t :: ts' => ∃ st1, effect W st t st1 ∧ follows W st1 ts' st'
  end.

(** The same world with another EXIF reader. *)
Definition with_exif (W : World) (reader : string → option string) : World :=
  {| os_path_join := os_path_join W;
     os_path_split := os_path_split W;
     os_listdir := os_listdir W;
     os_walk := os_walk W;
     sha1 := sha1 W;
     exif_DateTimeOriginal := reader;
     may_open := may_open W;
     may_mkdir := may_mkdir W;
     may_rename := may_rename W |}.

(** The same for a sequence of files. *)
Definition run_ok (st : State) (r : Res (list Terminal)) : Prop :=
  let st' := res_state r in
  hashes st ⊆ hashes st' ∧ registry_ok st' ∧
  match r with
  | Ok ts _ =>
      size (hashes st') = size (hashes st) + tally registered ts
      ∧ copycount st' = copycount st + tally moved ts
  | Raise _ _ => True
  end.

(** The date [importfolder] arrives at for an entry whose bytes are
    [data]: from the name when it ends in [.mp4], else from the EXIF tag. *)
Definition resolve_date (W : World) (item data : string) : option groupdict :=
  if Str.endswith item ".mp4" then vidregex_match item
  else image_metadata (exif_DateTimeOriginal W data).


(** ** Example folders *)

Module Demo.

Definition regular (data : string) (t : Z) : node :=
  Regular {| content := data; mtime := t |}.

Definition video : string := "VID_20230401_001.mp4".

(** The bytes of a picture taken on 25 December 2022. *)
Definition jpeg (rest : string) : string :=
  "Exif:2022:12:25 10:00:00|" +:+ rest.

(** A folder with one video named by the convention. *)
Definition one_video : FS :=
  list_to_map [("/src", Directory); ("/lib", Directory);
               ("/src/VID_20230401_001.mp4", regular "moov" 1)].

Definition W_one_video : World := posix (only "/src" [video]) [].


(** A picture that cannot be opened, listed before a video. *)
Definition locked_first : FS :=
  list_to_map [("/src", Directory); ("/lib", Directory);
               ("/src/locked.jpg", regular (jpeg "") 1);
               ("/src/VID_20230401_001.mp4", regular "moov" 1)].

Definition W_locked_first : World :=
  posix (only "/src" ["locked.jpg"; video]) ["/src/locked.jpg"].

(** A picture without a dot in its name whose place in the library is
    taken by a different picture, listed before a video. *)
Definition no_dot : FS :=
  list_to_map [("/src", Directory); ("/lib", Directory);
               ("/src/IMG0001", regular (jpeg "new") 2);
               ("/src/VID_20230401_001.mp4", regular "moov" 1);
               ("/lib/2022\12\25", Directory);
               ("/lib/2022\12\25/IMG0001", regular (jpeg "older") 1)].

Definition W_no_dot : World := posix (only "/src" ["IMG0001"; video]) [].

(** The same with two dots in the name. *)
Definition two_dots : FS :=
  list_to_map [("/src", Directory); ("/lib", Directory);
               ("/src/a.b.jpg", regular (jpeg "new") 2);
               ("/lib/2022\12\25", Directory);
               ("/lib/2022\12\25/a.b.jpg", regular (jpeg "older") 1)].

Definition W_two_dots : World := posix (only "/src" ["a.b.jpg"]) [].

(** A picture with a date tag stored under a name ending in [.mp4]. *)
Definition misnamed : FS :=
  list_to_map [("/src", Directory); ("/lib", Directory);
               ("/src/clip.mp4", regular (jpeg "") 1)].

Definition W_misnamed : World := posix (only "/src" ["clip.mp4"]) [].

(** Two videos with the same bytes; only the second is named by the
    convention. *)
Definition twins : FS :=
  list_to_map [("/src", Directory); ("/lib", Directory);
               ("/src/clip.mp4", regular "moov" 1);
               ("/src/VID_20230401_001.mp4", regular "moov" 2)].

Definition W_twins : World := posix (only "/src" ["clip.mp4"; video]) [].

(** A picture whose place in the library is taken by a different picture
    of the same size and modification time. *)
Definition same_signature : FS :=
  list_to_map [("/src", Directory); ("/lib", Directory);
               ("/src/b.jpg", regular (jpeg "new") 1);
               ("/lib/2022\12\25", Directory);
               ("/lib/2022\12\25/b.jpg", regular (jpeg "old") 1)].

Definition W_same_signature : World := posix (only "/src" ["b.jpg"]) [].

(** A video named by the convention, but not an [.mp4]. *)
Definition avi : FS :=
  list_to_map [("/src", Directory); ("/lib", Directory);
               ("/src/VID_20230401_001.avi", regular "riff" 1)].

Definition W_avi : World := posix (only "/src" ["VID_20230401_001.avi"]) [].



(** A video whose name goes on after the [.mp4] of the convention. *)
Definition part : FS :=
  list_to_map [("/src", Directory); ("/lib", Directory);
               ("/src/VID_20230401_001.mp4.part.mp4", regular "moov" 1)].

Definition W_part : World :=
  posix (only "/src" ["VID_20230401_001.mp4.part.mp4"]) [].

(** A picture under a name that begins like a video's and ends in
    [.bak]. *)
Definition backup : FS :=
  list_to_map [("/src", Directory); ("/lib", Directory);
               ("/src/VID_20230401_001.mp4.bak", regular (jpeg "") 1)].

Definition W_backup : World :=
  posix (only "/src" ["VID_20230401_001.mp4.bak"]) [].

(** A video named with Arabic-Indic digits. *)
Definition arabic : FS :=
  list_to_map [("/src", Directory); ("/lib", Directory);
               ("/src/VID_٢٠٢٣٠٤٠١_001.mp4", regular "moov" 1)].

Definition W_arabic : World := posix (only "/src" ["VID_٢٠٢٣٠٤٠١_001.mp4"]) [].

(** A machine on which the folder of 1 April 2023 cannot be made in the
    library [/lib/archive]. *)
Definition W_no_leaf : World :=
  let W := W_one_video in
  {| os_path_join := os_path_join W;
     os_path_split := os_path_split W;
     os_listdir := os_listdir W;
     os_walk := os_walk W;
     sha1 := sha1 W;
     exif_DateTimeOriginal := exif_DateTimeOriginal W;
     may_open := may_open W;
     may_mkdir :=
       fun _ name => negb (bool_decide (name = "/lib/archive/2023\04\01"));
     may_rename := may_rename W |}.

Definition args (directory : string) : Args :=
  {| recursive := false; folders := [directory]; library := "/lib" |}.

End Demo.

(** ** Reading in chunks *)

(** A file object opened for reading is the bytes not yet read.
    [fobj.read(chunksize)]: up to [chunksize] of them, and the file object
    afterwards. *)
Fixpoint read (chunksize : nat) (fobj : string) : string * string :=
  match chunksize, fobj with
  | S n, String c rest =>
      let '(chunk, fobj') := read n rest in (String c chunk, fobj')
  | _, _ => ("", fobj)
  end.

(** The generator [chunkreader], as the list of the chunks it yields;
    [fuel] bounds the turns of its [while True]. *)
Fixpoint chunkreader_go (fuel : nat) (fobj : string) (chunksize : nat)
    : list string :=
  match fuel with
  | 0 => []
  | S fuel' =>
      let '(chunk, fobj') := read chunksize fobj in
      if negb (Str.truthy chunk) then []
      else chunk :: chunkreader_go fuel' fobj' chunksize
  end.

(** One turn more than there are bytes: each turn but the last reads at
    least one. *)
Definition chunkreader (fobj : string) (chunksize : nat) : list string :=
  chunkreader_go (S (String.length fobj)) fobj chunksize.

(** [hashlib.sha1()] as the bytes it has been fed: [update] appends, and
    the digest is that of all of them. *)
Definition hashobj_update (hashobj chunk : string) : string :=
  hashobj +:+ chunk.

(** [hashfile] with its loop over [chunkreader(fileobj)], whose chunk size
    is the default 1024, written out. *)
Definition hashfile_streamed (W : World) (filename : string) : M Registered :=
  fun st =>
  match open_rb W (fs st) filename with
  | None => Raise OSError st
  | Some fileobj =>
      let hashobj := fold_left hashobj_update (chunkreader fileobj 1024) "" in
      let fileid := (sha1 W hashobj, String.length fileobj) in
      match hashes st !! fileid with
      | Some duplicate =>
          if Str.truthy duplicate then Ok (Duplicate duplicate) st
          else Ok Unique (set_hashes st (<[fileid := filename]> (hashes st)))
      | None => Ok Unique (set_hashes st (<[fileid := filename]> (hashes st)))
      end
  end.

(** The chunks put back together. *)
Definition join_chunks (chunks : list string) : string :=
  foldr String.app "" chunks.

(** ** Comparing file systems *)

Definition regular_of (n : node) : option file :=
  match n with Regular f => Some f | Directory => None end.

(** The regular files of a file system, bytes and modification time,
    without their paths: one entry for each path that holds one. *)
Definition files (x : FS) : list file :=
  (map_to_list (omap regular_of x)).*2.

(** [x'] has the files of [x]: the regular files of the two are the same
    up to their paths and their order, each as often in [x'] as in [x];
    and every directory of [x] is one of [x'] under the same path. *)
Definition same_files (x x' : FS) : Prop :=
  files x ≡ₚ files x'
  ∧ ∀ q, x !! q = Some Directory → x' !! q = Some Directory.

(** A computation that keeps the files, also when it raises. *)
Definition keeps {A} (c : M A) : Prop :=
  ∀ st, same_files (fs st) (fs (res_state (c st))).

(** The candidate name with suffix [k] of [filename], when it has one. *)
Definition candidate (filename : string) (k : nat) : option string :=
  match Str.split "." filename !! 0, Str.split "." filename !! 1 with
  | Some base, Some ext => Some (renamed base k ext)
  | _, _ => None
  end.

(** ** The two patterns *)

Example vidregex_ex1 :
  vidregex_match "VID_20230401_001.mp4"
  = Some {| year := "2023"; month := "04"; day := "01" |}.
Proof. reflexivity. Qed.

Example vidregex_ex2 :
  vidregex_match "VID_20230401_001.mp4.part"
  = Some {| year := "2023"; month := "04"; day := "01" |}
  ∧ vidregex_match "VID_2023041_001.mp4" = None
  ∧ vidregex_match "vid_20230401_001.mp4" = None
  ∧ vidregex_match "VID_20230401_.mp4" = None.
Proof. repeat split. Qed.

Example dateregex_ex1 :
  dateregex_match "2022:12:25 10:00:00"
  = Some {| year := "2022"; month := "12"; day := "25" |}.
Proof. reflexivity. Qed.

Example dateregex_ex2 :
  dateregex_match "2022-12-25 10:00:00" = None
  ∧ dateregex_match "2022:12:25  10:00:00" = None
  ∧ dateregex_match "2022:12:25 10:00:00 " = None
  ∧ dateregex_match ("2022:12:25 10:00:00" +:+ String "010"%char "")
    = Some {| year := "2022"; month := "12"; day := "25" |}.
Proof. repeat split. Qed.

(** [\d] is any decimal digit of Unicode, [\s] any of its white space. *)
Example vidregex_arabic :
  vidregex_match "VID_٢٠٢٣٠٤٠١_001.mp4"
  = Some {| year := "٢٠٢٣"; month := "٠٤"; day := "٠١" |}.
Proof. reflexivity. Qed.

Example dateregex_no_break_space :
  dateregex_match "2022:12:25 10:00:00"
  = Some {| year := "2022"; month := "12"; day := "25" |}.
Proof. reflexivity. Qed.

Example vidregex_superscript : vidregex_match "VID_2023040¹_001.mp4" = None.
Proof. reflexivity. Qed.

Example split_ex :
  Str.split "." "a.b.jpg" = ["a"; "b"; "jpg"]
  ∧ Str.split "." "IMG0001" = ["IMG0001"]
  ∧ Str.split "." ".profile" = [""; "profile"].
Proof. repeat split. Qed.

Example endswith_ex :
  Str.endswith "clip.mp4" ".mp4" = true
  ∧ Str.endswith "VID_20230401_001.mp4.part" ".mp4" = false
  ∧ Str.endswith "mp4" ".mp4" = false.
Proof. repeat split. Qed.

Example posixpath_join_ex :
  posixpath_join "/lib" "2023\04\01" = "/lib/2023\04\01"
  ∧ posixpath_join "/lib/" "x" = "/lib/x"
  ∧ posixpath_join "" "x" = "x"
  ∧ posixpath_join "/lib" "/x" = "/x".
Proof. repeat split. Qed.

Example renamed_ex : renamed "IMG_1" 12 "jpg" = "IMG_1-12.jpg".
Proof. reflexivity. Qed.

Section Patterns.

Lemma bind_some_eq {A B} (x : A) (f : A → option B) : Some x ≫= f = f x.
Proof. reflexivity. Qed.

Ltac next := rewrite bind_some_eq; cbv beta iota.

Lemma app_cons c a b : String c a +:+ b = String c (a +:+ b).
Proof. reflexivity. Qed.

Lemma app_nil_l (a : string) : "" +:+ a = a.
Proof. reflexivity. Qed.

Lemma sapp_assoc (a b c : string) : (a +:+ b) +:+ c = a +:+ (b +:+ c).
Proof. induction a as [|x a IH]; [done|]. rewrite !app_cons. by f_equal. Qed.

Lemma sapp_nil_r (a : string) : a +:+ "" = a.
Proof. induction a as [|x a IH]; [done|]. rewrite app_cons. by f_equal. Qed.

Lemma length_app' (a b : string) :
  String.length (a +:+ b) = String.length a + String.length b.
Proof. induction a as [|x a IH]; [done|]. rewrite app_cons. simpl. by f_equal. Qed.

Lemma lit_Some p s r : Str.lit p s = Some r ↔ s = p +:+ r.
Proof.
  revert s; induction p as [|a p IH]; intros s; simpl.
  - split; [intros [= ->]; done | intros ->; done].
  - destruct s as [|b s]; [split; [done | intros [=]]|].
    destruct (decide (a = b)) as [->|Hne].
    + rewrite IH. split; [intros ->; done | intros [= ->]; done].
    + split; [done | intros [= ? ?]; congruence].
Qed.

Lemma lit_app p r : Str.lit p (p +:+ r) = Some r.
Proof. by apply lit_Some. Qed.

Lemma decode1_sound s cp c r :
  Str.decode1 s = Some (cp, c, r) → s = c +:+ r ∧ c ≠ "".
Proof.
  unfold Str.decode1. intros H.
  repeat case_match; simplify_eq; done.
Qed.

(** The character at the head of a string does not depend on what follows
    its bytes. *)
Lemma decode1_app s cp c r r' :
  Str.decode1 s = Some (cp, c, r) → Str.decode1 (c +:+ r') = Some (cp, c, r').
Proof.
  intros H. destruct s as [|c0 s0]; [done|]. unfold Str.decode1 in H.
  cbv zeta in H.
  destruct (Str.byte c0 <? 128)%N eqn:E1.
  { injection H as <- <- <-. rewrite app_cons, app_nil_l.
    unfold Str.decode1. cbv zeta. by rewrite E1. }
  destruct ((194 <=? Str.byte c0) && (Str.byte c0 <? 224))%N eqn:E2.
  { destruct s0 as [|c1 s1]; [done|].
    destruct (Str.cont c1) eqn:C1; [|done]. injection H as <- <- <-.
    rewrite !app_cons, app_nil_l. unfold Str.decode1. cbv zeta.
    by rewrite E1, E2, C1. }
  destruct ((224 <=? Str.byte c0) && (Str.byte c0 <? 240))%N eqn:E3.
  { destruct s0 as [|c1 [|c2 s2]]; try done.
    match type of H with (if ?b then _ else _) = _ =>
      destruct b eqn:C; [|done] end.
    injection H as <- <- <-.
    rewrite !app_cons, app_nil_l. unfold Str.decode1. cbv zeta.
    by rewrite E1, E2, E3, C. }
  destruct ((240 <=? Str.byte c0) && (Str.byte c0 <? 245))%N eqn:E4; [|done].
  destruct s0 as [|c1 [|c2 [|c3 s3]]]; try done.
  match type of H with (if ?b then _ else _) = _ =>
    destruct b eqn:C; [|done] end.
  injection H as <- <- <-.
  rewrite !app_cons, app_nil_l. unfold Str.decode1. cbv zeta.
  by rewrite E1, E2, E3, E4, C.
Qed.

Lemma one_sound p s c r :
  Str.one p s = Some (c, r)
  → s = c +:+ r ∧ c ≠ "" ∧ Str.one p c = Some (c, "").
Proof.
  unfold Str.one. destruct (Str.decode1 s) as [[[cp c'] r']|] eqn:Hd; [|done].
  destruct (p cp) eqn:Hp; [|done]. intros [= -> ->].
  destruct (decode1_sound _ _ _ _ Hd) as [-> Hne]. split_and!; try done.
  apply (decode1_app _ _ _ _ "") in Hd. rewrite sapp_nil_r in Hd.
  by rewrite Hd, Hp.
Qed.

Lemma one_app p c r :
  Str.one p c = Some (c, "") → Str.one p (c +:+ r) = Some (c, r).
Proof.
  unfold Str.one. destruct (Str.decode1 c) as [[[cp c'] r']|] eqn:Hd; [|done].
  destruct (p cp) eqn:Hp; [|done]. intros [= -> ->].
  apply (decode1_app _ _ _ _ r) in Hd. by rewrite Hd, Hp.
Qed.

Lemma digits_sound n s d r :
  Str.digits n s = Some (d, r) → s = d +:+ r ∧ is_digits n d.
Proof.
  revert s d r; induction n as [|n IH]; intros s d r; simpl.
  - by intros [= <- <-].
  - destruct (Str.one Str.is_digit s) as [[c s']|] eqn:Hc; [|done].
    destruct (Str.digits n s') as [[d' r']|] eqn:Hd; [|done].
    intros [= <- <-]. apply IH in Hd as [-> Hd].
    apply one_sound in Hc as (-> & _ & Hc). split.
    + by rewrite sapp_assoc.
    + by exists c, d'.
Qed.

Lemma digits_complete n d r :
  is_digits n d → Str.digits n (d +:+ r) = Some (d, r).
Proof.
  revert d; induction n as [|n IH]; intros d; simpl.
  - by intros ->.
  - intros (c & d' & -> & Hc & Hd). rewrite sapp_assoc.
    rewrite (one_app _ _ _ Hc). by rewrite (IH _ Hd).
Qed.

(** A way to check [is_digits] on a given string. *)
Lemma digits_is_digits n d : Str.digits n d = Some (d, "") → is_digits n d.
Proof. by intros [_ ?]%digits_sound. Qed.

Lemma is_digits_length n d : is_digits n d → (n ≤ String.length d)%nat.
Proof.
  revert d; induction n as [|n IH]; intros d; simpl; [lia|].
  intros (c & d' & -> & Hc & Hd). apply IH in Hd.
  apply one_sound in Hc as (_ & Hne & _). rewrite length_app'.
  destruct c; [done | simpl; lia].
Qed.

Lemma skip_digits_go_sound fuel s :
  ∃ k n, s = n +:+ Str.skip_digits_go fuel s ∧ is_digits k n.
Proof.
  revert s; induction fuel as [|fuel IH]; intros s; simpl.
  - by exists 0, "".
  - destruct (Str.one Str.is_digit s) as [[c s']|] eqn:Hc.
    + destruct (IH s') as (k & n & Hs & Hn).
      apply one_sound in Hc as (-> & _ & Hc).
      exists (S k), (c +:+ n). split.
      * rewrite sapp_assoc. by f_equal.
      * by exists c, n.
    + by exists 0, "".
Qed.

Lemma skip_digits_go_complete fuel k n r :
  is_digits k n → Str.one Str.is_digit r = None → (k ≤ fuel)%nat →
  Str.skip_digits_go fuel (n +:+ r) = r.
Proof.
  revert k n; induction fuel as [|fuel IH]; intros k n Hn Hr Hk.
  - assert (k = 0) as -> by lia. simpl in Hn. by subst.
  - destruct k as [|k]; simpl in Hn.
    + subst. rewrite app_nil_l. cbn [Str.skip_digits_go]. by rewrite Hr.
    + destruct Hn as (c & d' & -> & Hc & Hd). rewrite sapp_assoc.
      cbn [Str.skip_digits_go].
      rewrite (one_app _ _ _ Hc). apply (IH k); [done | done | lia].
Qed.

Lemma digits1_sound s r :
  Str.digits1 s = Some r → ∃ n, is_number n ∧ s = n +:+ r.
Proof.
  unfold Str.digits1.
  destruct (Str.one Str.is_digit s) as [[c s']|] eqn:Hc; [|done].
  intros [= <-]. apply one_sound in Hc as (-> & _ & Hc).
  destruct (skip_digits_go_sound (String.length s') s') as (k & n & Hs & Hn).
  exists (c +:+ n). split.
  - exists (S k). split; [lia|]. by exists c, n.
  - rewrite sapp_assoc. by f_equal.
Qed.

Lemma digits1_complete n r :
  is_number n → Str.one Str.is_digit r = None →
  Str.digits1 (n +:+ r) = Some r.
Proof.
  intros (k & Hk & Hn) Hr. destruct k as [|k]; [lia|].
  destruct Hn as (c & d' & -> & Hc & Hd). rewrite sapp_assoc.
  unfold Str.digits1. rewrite (one_app _ _ _ Hc). f_equal.
  unfold Str.skip_digits. apply (skip_digits_go_complete _ k); try done.
  apply is_digits_length in Hd. rewrite length_app'. lia.
Qed.

Lemma vidregex_sound filename g :
  vidregex_match filename = Some g → video_name g filename.
Proof.
  unfold vidregex_match. intros H.
  apply bind_Some in H as (s0 & H0 & H).
  apply bind_Some in H as ([y s1] & H1 & H).
  apply bind_Some in H as ([m s2] & H2 & H).
  apply bind_Some in H as ([d s3] & H3 & H).
  apply bind_Some in H as (s4 & H4 & H).
  apply bind_Some in H as (s5 & H5 & H).
  apply bind_Some in H as (s6 & H6 & H).
  injection H as <-.
  apply lit_Some in H0, H4, H6.
  apply digits_sound in H1 as (-> & ?), H2 as (-> & ?), H3 as (-> & ?).
  apply digits1_sound in H5 as (n & Hn & ->). subst.
  split; [done|]. by exists n, s6.
Qed.

Lemma vidregex_complete filename g :
  video_name g filename → vidregex_match filename = Some g.
Proof.
  intros [(Hy & Hm & Hd) (n & rest & Hn & ->)].
  unfold vidregex_match. rewrite lit_app. next.
  rewrite (digits_complete 4) by done. next.
  rewrite (digits_complete 2) by done. next.
  rewrite (digits_complete 2) by done. next.
  rewrite (lit_app "_"). next.
  rewrite digits1_complete by (done || by vm_compute). next.
  rewrite (lit_app ".mp4"). next.
  by destruct g.
Qed.

Lemma space_Some s r :
  Str.space s = Some r ↔ ∃ sp, one_space sp ∧ s = sp +:+ r.
Proof.
  unfold Str.space, one_space. split.
  - destruct (Str.one Str.is_space s) as [[c s']|] eqn:Hc; [|done].
    intros [= <-]. apply one_sound in Hc as (-> & _ & Hc). eauto.
  - intros (sp & Hsp & ->). by rewrite (one_app _ _ _ Hsp).
Qed.

Lemma at_end_true s :
  Str.at_end s = true ↔ s = "" ∨ s = String "010"%char "".
Proof.
  unfold Str.at_end. rewrite orb_true_iff, !bool_decide_eq_true. done.
Qed.

Lemma dateregex_sound value g :
  dateregex_match value = Some g → date_value g value.
Proof.
  unfold dateregex_match. intros H.
  apply bind_Some in H as ([y s1] & H1 & H).
  apply bind_Some in H as (s2 & H2 & H).
  apply bind_Some in H as ([m s3] & H3 & H).
  apply bind_Some in H as (s4 & H4 & H).
  apply bind_Some in H as ([d s5] & H5 & H).
  apply bind_Some in H as (s6 & H6 & H).
  apply bind_Some in H as ([hh s7] & H7 & H).
  apply bind_Some in H as (s8 & H8 & H).
  apply bind_Some in H as ([mi s9] & H9 & H).
  apply bind_Some in H as (s10 & H10 & H).
  apply bind_Some in H as ([ss s11] & H11 & H).
  destruct (Str.at_end s11) eqn:Hend; [|done]. injection H as <-.
  apply at_end_true in Hend.
  apply lit_Some in H2, H4, H8, H10.
  apply space_Some in H6 as (sp & Hsp & H6).
  apply digits_sound in H1 as (-> & ?), H3 as (-> & ?),
    H5 as (-> & ?), H7 as (-> & ?), H9 as (-> & ?),
    H11 as (-> & ?).
  subst. split; [done|]. by exists sp, hh, mi, ss, s11.
Qed.

Lemma dateregex_complete value g :
  date_value g value → dateregex_match value = Some g.
Proof.
  intros [(Hy & Hm & Hd)
          (sp & hh & mi & ss & tail & Hsp & ? & ? & ? & Htail & ->)].
  unfold dateregex_match.
  rewrite (digits_complete 4) by done. next.
  rewrite (lit_app ":"). next.
  rewrite (digits_complete 2) by done. next.
  rewrite (lit_app ":"). next.
  rewrite (digits_complete 2) by done. next.
  replace (Str.space _) with (Some (hh +:+ ":" +:+ mi +:+ ":" +:+ ss +:+ tail))
    by (symmetry; apply space_Some; eauto).
  next.
  rewrite (digits_complete 2) by done. next.
  rewrite (lit_app ":"). next.
  rewrite (digits_complete 2) by done. next.
  rewrite (lit_app ":"). next.
  rewrite (digits_complete 2) by done. next.
  apply at_end_true in Htail. rewrite Htail. by destruct g.
Qed.

(** Every value of the specification's exact pattern is one [dateregex]
    accepts, with the same groups. *)
Lemma spec_date_pattern_accepted value g :
  spec_date_pattern value = Some g → dateregex_match value = Some g.
Proof.
  unfold spec_date_pattern, dateregex_match. intros H.
  apply bind_Some in H as ([y s1] & -> & H). next.
  apply bind_Some in H as (s2 & -> & H). next.
  apply bind_Some in H as ([m s3] & -> & H). next.
  apply bind_Some in H as (s4 & -> & H). next.
  apply bind_Some in H as ([d s5] & -> & H). next.
  apply bind_Some in H as (s6 & H6 & H).
  apply lit_Some in H6 as ->.
  replace (Str.space _) with (Some s6) by (by vm_compute). next.
  apply bind_Some in H as ([hh s7] & -> & H). next.
  apply bind_Some in H as (s8 & -> & H). next.
  apply bind_Some in H as ([mi s9] & -> & H). next.
  apply bind_Some in H as (s10 & -> & H). next.
  apply bind_Some in H as ([ss s11] & -> & H). next.
  destruct (decide (s11 = "")) as [->|]; [done | done].
Qed.

End Patterns.

(** ** The steps of a run *)

Section Run.

Context (W : World).

Implicit Types (st : State) (x : FS).

Lemma stat_Some x path n : stat x path = Some n → path ≠ "" ∧ x !! path = Some n.
Proof. unfold stat. by case_decide. Qed.

Lemma stat_lookup x path : path ≠ "" → stat x path = x !! path.
Proof. unfold stat. by case_decide. Qed.

Lemma stat_None x path : stat x path = None → path = "" ∨ x !! path = None.
Proof. unfold stat. case_decide; auto. Qed.

Lemma exists_stat x path :
  os_path_exists x path = true ↔ ∃ n, stat x path = Some n.
Proof.
  unfold os_path_exists. destruct (stat x path); split; eauto; try done.
  by intros [? ?].
Qed.

Lemma isfile_stat x path :
  os_path_isfile x path = true ↔ ∃ f, stat x path = Some (Regular f).
Proof.
  unfold os_path_isfile. destruct (stat x path) as [[f|]|]; split; eauto;
    try done; by intros [? ?].
Qed.

Lemma open_rb_Some x path data :
  open_rb W x path = Some data
  ↔ ∃ f, stat x path = Some (Regular f) ∧ may_open W path = true
         ∧ data = content f.
Proof.
  unfold open_rb. destruct (stat x path) as [[f|]|].
  - destruct (may_open W path); split.
    + intros [= <-]. eauto.
    + by intros (? & [= <-] & _ & ->).
    + done.
    + by intros (? & _ & ? & _).
  - split; [done | by intros (? & ? & _)].
  - split; [done | by intros (? & ? & _)].
Qed.

Lemma open_rb_nonempty x path data : open_rb W x path = Some data → path ≠ "".
Proof. intros (f & Hf & _)%open_rb_Some. by apply stat_Some in Hf as [? _]. Qed.

(** *** [hashfile] *)

Lemma hashfile_duplicate st filename data d :
  registry_ok st → open_rb W (fs st) filename = Some data
  → hashes st !! key_of W data = Some d
  → hashfile W filename st = Ok (Duplicate d) st.
Proof.
  intros Hok Hopen Hd. unfold hashfile. rewrite Hopen.
  unfold key_of in Hd. rewrite Hd.
  unfold Str.truthy. rewrite bool_decide_eq_false_2; [done|]. eauto.
Qed.

Lemma hashfile_fresh st filename data :
  open_rb W (fs st) filename = Some data
  → hashes st !! key_of W data = None
  → hashfile W filename st
    = Ok Unique (set_hashes st (<[key_of W data := filename]> (hashes st))).
Proof.
  intros Hopen Hd. unfold hashfile. rewrite Hopen.
  unfold key_of in *. by rewrite Hd.
Qed.

(** What [hashfile] does in a state whose registry is well formed. *)
Lemma hashfile_cases st filename :
  registry_ok st →
  (open_rb W (fs st) filename = None ∧ hashfile W filename st = Raise OSError st)
  ∨ (∃ data d, open_rb W (fs st) filename = Some data
       ∧ hashes st !! key_of W data = Some d
       ∧ hashfile W filename st = Ok (Duplicate d) st)
  ∨ (∃ data, open_rb W (fs st) filename = Some data
       ∧ hashes st !! key_of W data = None
       ∧ hashfile W filename st
         = Ok Unique (set_hashes st (<[key_of W data := filename]> (hashes st)))).
Proof.
  intros Hok. destruct (open_rb W (fs st) filename) as [data|] eqn:Hopen.
  - right. destruct (hashes st !! key_of W data) as [d|] eqn:Hd.
    + left. exists data, d. eauto using hashfile_duplicate.
    + right. exists data. eauto using hashfile_fresh.
  - left. split; [done|]. unfold hashfile. by rewrite Hopen.
Qed.

Lemma registry_ok_insert st k filename :
  registry_ok st → filename ≠ ""
  → registry_ok (set_hashes st (<[k := filename]> (hashes st))).
Proof.
  intros Hok Hne k' p'. simpl. rewrite lookup_insert. case_decide.
  - by intros [= <-].
  - apply Hok.
Qed.

(** *** [validatedirectory] and the search for a free name *)

Lemma dirs_added_refl x : dirs_added x x.
Proof. split; [done|]. intros q n ??. congruence. Qed.

Lemma dirs_added_trans x1 x2 x3 :
  dirs_added x1 x2 → dirs_added x2 x3 → dirs_added x1 x3.
Proof.
  intros [Hs Hd] [Hs' Hd']. split; [by etrans|].
  intros q n Hq Hnone. destruct (x2 !! q) as [m|] eqn:Hm.
  - pose proof (lookup_weaken _ _ _ _ Hm Hs'). apply (Hd q); congruence.
  - by apply (Hd' q).
Qed.

Lemma os_mkdir_adds x name : dirs_added x (made_fs (os_mkdir W x name)).
Proof.
  unfold os_mkdir. destruct (os_path_exists x name) eqn:Hex;
    [apply dirs_added_refl|].
  case_decide as Hne; [apply dirs_added_refl|].
  destruct (may_mkdir W x name); [|apply dirs_added_refl]. simpl.
  assert (Hnone : x !! name = None).
  { unfold os_path_exists in Hex. rewrite stat_lookup in Hex by done.
    by destruct (x !! name). }
  split; [by apply insert_subseteq|].
  intros q n. rewrite lookup_insert. case_decide; [congruence|].
  congruence.
Qed.


Lemma os_makedirs_go_adds fuel x name :
  dirs_added x (made_fs (os_makedirs_go W fuel x name)).
Proof.
  revert x name. induction fuel as [|fuel IH]; intros x name; simpl;
    [apply dirs_added_refl|].
  destruct (split_last W name) as [head' tail'].
  destruct (_ && _); [|apply os_mkdir_adds].
  pose proof (IH x head') as Hrec.
  destruct (os_makedirs_go W fuel x head') as [x'|x'|x']; simpl in *;
    try done;
    (case_decide; [done|]);
    (eapply dirs_added_trans; [exact Hrec | apply os_mkdir_adds]).
Qed.


(** What [validatedirectory] does to the state: registry and counter are
    untouched, the file system gains directories at most, and nothing at
    all when the directory is there already. *)
Lemma validatedirectory_effect directory st b st1 :
  validatedirectory W directory st = (b, st1) →
  hashes st1 = hashes st ∧ copycount st1 = copycount st
  ∧ dirs_added (fs st) (fs st1)
  ∧ (os_path_exists (fs st) directory = true → b = true ∧ st1 = st).
Proof.
  unfold validatedirectory.
  destruct (os_path_exists (fs st) directory) eqn:Hex.
  - intros [= <- <-]. split_and!; try done. apply dirs_added_refl.
  - pose proof (os_makedirs_go_adds (S (String.length directory)) (fs st)
                  directory) as Hadd.
    unfold os_makedirs.
    destruct (os_makedirs_go W _ (fs st) directory) as [x'|x'|x'];
      intros [= <- <-]; simpl in *; split_and!; done.
Qed.

Lemma validatedirectory_grows directory st b st1 :
  validatedirectory W directory st = (b, st1) →
  fs st ⊆ fs st1 ∧ hashes st1 = hashes st ∧ copycount st1 = copycount st.
Proof. by intros (? & ? & [? _] & _)%validatedirectory_effect. Qed.

Lemma loop_free fuel x absolutepath filename library librarypath i p j :
  copyfile_loop W fuel x absolutepath filename library librarypath i = Free p j
  → os_path_exists x p = false.
Proof.
  revert librarypath i.
  induction fuel as [|fuel IH]; intros librarypath i; simpl; [done|].
  destruct (os_path_exists x librarypath) eqn:Hex.
  - destruct (comparefiles W x absolutepath librarypath) as [[]|]; try done.
    destruct (Str.split "." filename !! 0); [|done].
    destruct (Str.split "." filename !! 1); [|done].
    apply IH.
  - by intros [= <- <-].
Qed.

Lemma os_rename_Some x src dst x' :
  os_rename W x src dst = Some x' →
  ∃ n, stat x src = Some n ∧ dst ≠ "" ∧ x' = <[dst := n]> (delete src x).
Proof.
  unfold os_rename. destruct (stat x src) as [n|]; [|done].
  case_decide; [done|]. destruct (may_rename W x src dst); [|done].
  intros [= <-]. eauto.
Qed.

(** *** [copyfile] *)

(** The ways [copyfile] ends.  [st1] is the state after
    [validatedirectory]. *)
Lemma copyfile_cases absolutepath filename library librarypath st :
  ∃ b st1, validatedirectory W library st = (b, st1) ∧
  ((b = false
    ∧ copyfile W absolutepath filename library librarypath st
      = Ok (CreateError library) st1)
   ∨ (b = true ∧ ∃ e,
        copyfile W absolutepath filename library librarypath st = Raise e st1)
   ∨ (b = true ∧ ∃ p,
        copyfile W absolutepath filename library librarypath st
        = Ok (SkippedIdentical p) st1)
   ∨ (b = true ∧ ∃ p,
        copyfile W absolutepath filename library librarypath st
        = Ok (MoveError p) st1)
   ∨ (b = true ∧ ∃ p n pl,
        (pl = Moved p ∨ pl = RenamedMoved p)
        ∧ os_path_exists (fs st1) p = false
        ∧ stat (fs st1) absolutepath = Some n ∧ p ≠ ""
        ∧ copyfile W absolutepath filename library librarypath st
          = Ok pl {| fs := <[p := n]> (delete absolutepath (fs st1));
                     hashes := hashes st1;
                     copycount := S (copycount st1) |})).
Proof.
  unfold copyfile.
  destruct (validatedirectory W library st) as [b st1] eqn:Hv.
  exists b, st1. split; [done|]. destruct b; [|auto].
  destruct (copyfile_loop _ _ _ _ _ _ _ _) as [p i|p|e] eqn:Hloop.
  - destruct (os_rename W (fs st1) absolutepath p) as [x'|] eqn:Hren.
    + apply os_rename_Some in Hren as (n & Hn & Hp & ->).
      do 4 right. split; [done|].
      exists p, n, (if decide (i = 1) then Moved p else RenamedMoved p).
      split_and!; try done; [case_decide; auto | by eapply loop_free].
    + do 3 right. left. eauto.
  - do 2 right. left. eauto.
  - right. left. eauto.
Qed.

Lemma copyfile_place absolutepath filename library librarypath st :
  place_ok st
    (bind (copyfile W absolutepath filename library librarypath)
          (fun p => ret (Placed p)) st).
Proof.
  unfold bind, ret.
  destruct (copyfile_cases absolutepath filename library librarypath st)
    as (b & st1 & Hv & Hc).
  apply validatedirectory_grows in Hv as (Hfs & Hh & Hcc).
  destruct Hc as [(_ & ->)|[(_ & e & ->)|[(_ & q & ->)|[(_ & q & ->)|
    (_ & q & n & pl & Hpl & Hex & Hn & Hq & ->)]]]]; unfold place_ok; simpl.
  - rewrite Hcc. split_and!; try done; unfold b2n; lia.
  - rewrite Hcc. split_and!; done.
  - rewrite Hcc. split_and!; try done; unfold b2n; lia.
  - rewrite Hcc. split_and!; try done; unfold b2n; lia.
  - rewrite Hcc.
    destruct Hpl as [-> | ->]; simpl; split_and!; try done; lia.
Qed.

Lemma copyvideo_place absolutepath filename library st :
  place_ok st (copyvideo W absolutepath filename library st).
Proof.
  unfold copyvideo. destruct (vidregex_match filename) as [g|].
  - by apply copyfile_place.
  - unfold ret, place_ok. simpl. split_and!; try done; lia.
Qed.

Lemma import_image_place absolutepath item library st :
  place_ok st (import_image W absolutepath item library st).
Proof.
  unfold import_image.
  destruct (open_rb W (fs st) absolutepath) as [imagebuf|].
  - destruct (image_metadata _) as [g|].
    + unfold copyimage. by apply copyfile_place.
    + unfold place_ok. simpl. split_and!; try done; lia.
  - unfold place_ok. simpl. split_and!; done.
Qed.

(** *** One file *)

Lemma place_after_insert st k filename r :
  registry_ok st → filename ≠ "" → hashes st !! k = None →
  place_ok (set_hashes st (<[k := filename]> (hashes st))) r →
  step_ok st r.
Proof.
  intros Hok Hne Hnone (Hh & Hr). unfold step_ok. simpl in *.
  rewrite Hh. split_and!.
  - by apply insert_subseteq.
  - intros k' q. rewrite Hh. by apply (registry_ok_insert st k filename).
  - rewrite map_size_insert_None by done.
    destruct r as [t st'|e st']; simpl in *.
    + destruct Hr as (-> & Hc & Hf). simpl. split_and!; [lia | done | done].
    + done.
Qed.

Lemma import_item_step directory library item st :
  registry_ok st → step_ok st (import_item W directory library item st).
Proof.
  intros Hok. unfold import_item.
  set (absolutepath := os_path_join W directory item).
  destruct (os_path_isfile (fs st) absolutepath) eqn:Hfile; simpl.
  2: { unfold step_ok. simpl. split_and!; try done; lia. }
  destruct (hashfile_cases st absolutepath Hok)
    as [(_ & ->)|[(data & d & _ & _ & ->)|(data & Hopen & Hnone & ->)]].
  - unfold step_ok. simpl. split_and!; done.
  - unfold step_ok. simpl. split_and!; try done; lia.
  - apply open_rb_nonempty in Hopen.
    apply (place_after_insert st (key_of W data) absolutepath); try done.
    destruct (Str.endswith item ".mp4").
    + apply copyvideo_place.
    + apply import_image_place.
Qed.

(** A file that is not moved leaves every entry of the file system, its
    own included, and the counter as they were: so it is for a date that
    does not resolve, a directory that cannot be made and a rename that
    fails. *)
Lemma import_item_unmoved directory library item st t st' :
  registry_ok st →
  import_item W directory library item st = Ok t st' →
  moved t = false →
  fs st ⊆ fs st' ∧ copycount st' = copycount st.
Proof.
  intros Hok Hrun Hmv.
  pose proof (import_item_step directory library item st Hok) as (_ & _ & Hr).
  rewrite Hrun in Hr. simpl in Hr. destruct Hr as (_ & Hc & Hf).
  rewrite Hmv in Hc. simpl in Hc. split; [auto | lia].
Qed.

(** [copyfile] never replaces an entry: whatever was at a path other than
    the source is still there afterwards. *)
Lemma copyfile_keeps_others absolutepath filename library librarypath st q n :
  q ≠ absolutepath → fs st !! q = Some n →
  fs (res_state (copyfile W absolutepath filename library librarypath st)) !! q
  = Some n.
Proof.
  intros Hq Hn.
  destruct (copyfile_cases absolutepath filename library librarypath st)
    as (b & st1 & Hv & Hc).
  apply validatedirectory_grows in Hv as (Hfs & _ & _).
  assert (Hn1 : fs st1 !! q = Some n) by by eapply lookup_weaken.
  destruct Hc as [(_ & ->)|[(_ & e & ->)|[(_ & p & ->)|[(_ & p & ->)|
    (_ & p & m & pl & _ & Hex & _ & Hp & ->)]]]]; simpl; try done.
  rewrite lookup_insert_ne.
  - by rewrite lookup_delete_ne.
  - intros ->. unfold os_path_exists in Hex. rewrite stat_lookup in Hex by done.
    by rewrite Hn1 in Hex.
Qed.

(** *** Sequences of files, folders and the whole run *)

Lemma tally_cons f t ts : tally f (t :: ts) = b2n (f t) + tally f ts.
Proof. unfold tally. simpl. by destruct (f t). Qed.

Lemma tally_app f ts ts' : tally f (ts ++ ts')%list = tally f ts + tally f ts'.
Proof. unfold tally. by rewrite List.filter_app, length_app. Qed.

Lemma run_ok_nil st : registry_ok st → run_ok st (Ok [] st).
Proof. intros Hok. unfold run_ok, tally. simpl. split_and!; try done; lia. Qed.

Lemma import_items_run directory library items st :
  registry_ok st → run_ok st (import_items W directory library items st).
Proof.
  revert st. induction items as [|item rest IH]; intros st Hok.
  - by apply run_ok_nil.
  - simpl. unfold bind at 1.
    pose proof (import_item_step directory library item st Hok) as (Hsub & Hok1 & Hr).
    destruct (import_item W directory library item st) as [t st1|e st1];
      simpl in *; [|done].
    destruct Hr as (Hs & Hc & _). unfold bind at 1.
    pose proof (IH st1 Hok1) as (Hsub2 & Hok2 & Hr2).
    destruct (import_items W directory library rest st1) as [ts st2|e st2];
      simpl in *.
    + unfold ret, run_ok. simpl. rewrite !tally_cons. split_and!; try done.
      * by etrans.
      * lia.
      * lia.
    + unfold run_ok. simpl. split_and!; try done. by etrans.
Qed.

Lemma importfolder_run directory library st :
  registry_ok st → run_ok st (importfolder W directory library st).
Proof.
  intros Hok. unfold importfolder.
  destruct (os_listdir W (fs st) directory) as [items|].
  - by apply import_items_run.
  - unfold run_ok. by simpl.
Qed.

(** Two runs in a row, their traces joined. *)
Lemma run_ok_seq (c1 c2 : M (list Terminal)) st :
  run_ok st (c1 st) →
  (∀ st1, registry_ok st1 → run_ok st1 (c2 st1)) →
  run_ok st
    (bind c1 (fun ts => bind c2 (fun ts' => ret (ts ++ ts')%list)) st).
Proof.
  intros (Hsub & Hok1 & Hr) H2. unfold bind at 1.
  destruct (c1 st) as [ts st1|e st1]; simpl in *; [|done].
  destruct Hr as (Hs & Hc). unfold bind.
  pose proof (H2 st1 Hok1) as (Hsub2 & Hok2 & Hr2).
  destruct (c2 st1) as [ts' st2|e st2]; simpl in *.
  - unfold ret, run_ok. simpl. rewrite !tally_app. split_and!; try done.
    + by etrans.
    + lia.
    + lia.
  - unfold run_ok. simpl. split_and!; try done. by etrans.
Qed.

Lemma import_roots_run library roots st :
  registry_ok st → run_ok st (import_roots W library roots st).
Proof.
  revert st. induction roots as [|root rest IH]; intros st Hok.
  - by apply run_ok_nil.
  - simpl. apply run_ok_seq; [by apply importfolder_run | done].
Qed.

Lemma import_folders_run args directories st :
  registry_ok st → run_ok st (import_folders W args directories st).
Proof.
  revert st. induction directories as [|directory rest IH]; intros st Hok.
  - by apply run_ok_nil.
  - simpl. apply run_ok_seq; [|done].
    destruct (recursive args).
    + by apply import_roots_run.
    + by apply importfolder_run.
Qed.

Lemma initial_registry_ok x : registry_ok (initial x).
Proof. intros k q. unfold initial. simpl. by rewrite lookup_empty. Qed.

(** *** Outcomes fixed by the registry and the date *)

Lemma open_rb_isfile x path data :
  open_rb W x path = Some data → os_path_isfile x path = true.
Proof. intros (f & Hf & _)%open_rb_Some. apply isfile_stat. eauto. Qed.

Lemma import_item_duplicate directory library item st data d :
  registry_ok st →
  open_rb W (fs st) (os_path_join W directory item) = Some data →
  hashes st !! key_of W data = Some d →
  import_item W directory library item st = Ok (DuplicateSkipped d) st.
Proof.
  intros Hok Hopen Hd. unfold import_item.
  rewrite (open_rb_isfile _ _ _ Hopen). simpl.
  by rewrite (hashfile_duplicate st _ data d).
Qed.


(** *** A destination that already holds the same bytes *)







(** ** The claims *)



(** C5 (as amended): the video pattern yields the date exactly for the
    names that begin with [VID_], eight digits (year, month, day), an
    underscore, one or more digits and [.mp4], whatever follows, a digit
    being any decimal digit of Unicode; for every other name it yields
    nothing, and then [copyvideo] ends as [MissingSkipped] with the state
    as it was: nothing is moved or counted. *)
Theorem C5_video_date filename :
  (∀ g, vidregex_match filename = Some g ↔ video_name g filename)
  ∧ (vidregex_match filename = None →
     ∀ absolutepath library st,
       copyvideo W absolutepath filename library st = Ok MissingSkipped st).
Proof.
  split.
  - intros g. split; [apply vidregex_sound | apply vidregex_complete].
  - intros Hnone absolutepath library st. unfold copyvideo. by rewrite Hnone.
Qed.

(** C6 (as amended): the date of an image is found exactly when the tag
    is there and its value is a date of four, two and two digits, one
    whitespace character, a time of two, two and two digits, and at most one
    final line feed, digits and whitespace being those of Unicode; every
    value of the exact form [YYYY:MM:DD HH:MM:SS] is among them.  Otherwise nothing is found and the file ends as
    [MissingSkipped] with the state as it was.  The digits are not checked
    against the calendar: month 13 is taken as it is. *)
Theorem C6_image_date tag :
  (∀ g, image_metadata tag = Some g
        ↔ ∃ value, tag = Some value ∧ date_value g value)
  ∧ (∀ value g, tag = Some value → spec_date_pattern value = Some g →
       image_metadata tag = Some g)
  ∧ (image_metadata tag = None →
     ∀ absolutepath item library st imagebuf,
       open_rb W (fs st) absolutepath = Some imagebuf →
       exif_DateTimeOriginal W imagebuf = tag →
       import_image W absolutepath item library st = Ok MissingSkipped st)
  ∧ image_metadata (Some "2022:13:25 10:00:00")
    = Some {| year := "2022"; month := "13"; day := "25" |}.
Proof.
  split_and!.
  - intros g. destruct tag as [value|]; simpl.
    + split.
      * intros H%dateregex_sound. eauto.
      * intros (v & [= <-] & H). by apply dateregex_complete.
    + split; [done | by intros (? & ? & _)].
  - intros value g -> H. by apply spec_date_pattern_accepted.
  - intros Hnone absolutepath item library st imagebuf Hopen Htag.
    unfold import_image. by rewrite Hopen, Htag, Hnone.
  - reflexivity.
Qed.

End Run.

(** ** What the outcomes tell *)

Section Trace.

Context (W : World).

Implicit Types (st : State) (x : FS).

Lemma copyfile_effect absolutepath filename library librarypath st f pl st' :
  stat (fs st) absolutepath = Some (Regular f) →
  copyfile W absolutepath filename library librarypath st = Ok pl st' →
  hashes st' = hashes st
  ∧ if moved (Placed pl) then
      ∃ p x1,
        (pl = Moved p ∨ pl = RenamedMoved p)
        ∧ dirs_added (fs st) x1 ∧ x1 !! p = None
        ∧ fs st' = <[p := Regular f]> (delete absolutepath x1)
        ∧ copycount st' = S (copycount st)
    else dirs_added (fs st) (fs st') ∧ copycount st' = copycount st.
Proof.
  intros [Ha Hf]%stat_Some Hrun.
  destruct (copyfile_cases W absolutepath filename library librarypath st)
    as (b & st1 & Hv & Hc).
  apply validatedirectory_effect in Hv as (Hh & Hcc & Hadd & _).
  destruct Hc as [(_ & Hr)|[(_ & e & Hr)|[(_ & q & Hr)|[(_ & q & Hr)|
    (_ & p & n & pl' & Hpl & Hex & Hn & Hp & Hr)]]]];
    rewrite Hr in Hrun; try done; injection Hrun as <- <-; simpl;
    try done.
  apply stat_Some in Hn as [_ Hn].
  assert (n = Regular f) as ->.
  { eapply lookup_weaken in Hf; [|exact (proj1 Hadd)]. congruence. }
  assert (Hfree : fs st1 !! p = None).
  { unfold os_path_exists in Hex. rewrite stat_lookup in Hex by done.
    by destruct (fs st1 !! p). }
  split; [done|].
  destruct Hpl as [->| ->]; simpl; exists p, (fs st1);
    split_and!; auto; by rewrite Hcc.
Qed.

(** One turn of the loop of [importfolder] has the effect its outcome
    tells. *)
Lemma import_item_effect directory library item st t st' :
  registry_ok st →
  import_item W directory library item st = Ok t st' → effect W st t st'.
Proof.
  intros Hok. unfold import_item.
  set (absolutepath := os_path_join W directory item).
  destruct (os_path_isfile (fs st) absolutepath) eqn:Hfile; simpl.
  2: { intros [= <- <-]. repeat split; try done; apply dirs_added_refl. }
  destruct (hashfile_cases W st absolutepath Hok)
    as [(_ & ->)|[(data & d & _ & _ & ->)|(data & Hopen & Hnone & ->)]];
    [done | |].
  { intros [= <- <-]. repeat split; try done; apply dirs_added_refl. }
  apply open_rb_Some in Hopen as (f & Hf & Hread & ->).
  set (st0 := set_hashes st _).
  assert (Hplace : ∀ g,
    bind (copyfile W absolutepath item (os_path_join W library (date_path g))
            (date_path g)) (fun p => ret (Placed p)) st0 = Ok t st' →
    effect W st t st').
  { intros g. unfold bind, ret.
    destruct (copyfile W _ _ _ _ st0) as [pl st1|] eqn:Hc; [|done].
    intros [= <- <-].
    apply (copyfile_effect _ _ _ _ _ f) in Hc as [Hh Hc]; [|done].
    pose proof (proj2 (stat_Some _ _ _ Hf)) as Hsrc.
    split.
    - destruct (moved (Placed pl)).
      + destruct Hc as (p & x1 & ?). exists absolutepath, f, p, x1.
        destruct H as (Hpl & ? & ? & ? & ?).
        split_and!; try done. destruct Hpl as [->| ->]; auto.
      + done.
    - simpl. exists absolutepath, f. split_and!; try done. }
  destruct (Str.endswith item ".mp4").
  - unfold copyvideo. destruct (vidregex_match item) as [g|]; [apply Hplace|].
    intros [= <- <-]. split; simpl.
    + split; [apply dirs_added_refl | done].
    + exists absolutepath, f. split_and!; try done.
      by apply stat_Some in Hf as [_ ?].
  - unfold import_image. destruct (open_rb W (fs st0) absolutepath); [|done].
    destruct (image_metadata _) as [g|]; [apply Hplace|].
    intros [= <- <-]. split; simpl.
    + split; [apply dirs_added_refl | done].
    + exists absolutepath, f. split_and!; try done.
      by apply stat_Some in Hf as [_ ?].
Qed.

Lemma follows_app st ts st1 ts' st2 :
  follows W st ts st1 → follows W st1 ts' st2 →
  follows W st (ts ++ ts')%list st2.
Proof.
  revert st. induction ts as [|t ts IH]; intros st; simpl.
  - by intros ->.
  - intros (st0 & He & Hf) Hf'. exists st0. split; [done|]. by apply IH.
Qed.

Lemma import_items_follows directory library items st ts st' :
  registry_ok st →
  import_items W directory library items st = Ok ts st' →
  follows W st ts st'.
Proof.
  revert st ts. induction items as [|item rest IH]; intros st ts Hok; simpl.
  - by intros [= <- <-].
  - unfold bind at 1.
    pose proof (import_item_step W directory library item st Hok)
      as (_ & Hok1 & _).
    destruct (import_item W directory library item st) as [t st1|] eqn:Hi;
      [|done].
    unfold bind, ret.
    destruct (import_items W directory library rest st1) as [ts1 st2|] eqn:Hr;
      [|done].
    intros [= <- <-]. exists st1. split.
    + by apply (import_item_effect directory library item).
    + by apply IH.
Qed.

Lemma importfolder_follows directory library st ts st' :
  registry_ok st →
  importfolder W directory library st = Ok ts st' → follows W st ts st'.
Proof.
  intros Hok. unfold importfolder.
  destruct (os_listdir W (fs st) directory); [|done].
  by apply import_items_follows.
Qed.

Lemma import_roots_follows library roots st ts st' :
  registry_ok st →
  import_roots W library roots st = Ok ts st' → follows W st ts st'.
Proof.
  revert st ts. induction roots as [|root rest IH]; intros st ts Hok; simpl.
  - by intros [= <- <-].
  - unfold bind at 1.
    pose proof (importfolder_run W root library st Hok) as (_ & Hok1 & _).
    destruct (importfolder W root library st) as [ts0 st1|] eqn:Hi; [|done].
    unfold bind, ret.
    destruct (import_roots W library rest st1) as [ts1 st2|] eqn:Hr; [|done].
    intros [= <- <-]. apply (follows_app _ _ st1).
    + by apply (importfolder_follows root library).
    + by apply IH.
Qed.

Lemma import_folders_follows args directories st ts st' :
  registry_ok st →
  import_folders W args directories st = Ok ts st' → follows W st ts st'.
Proof.
  revert st ts.
  induction directories as [|directory rest IH]; intros st ts Hok; simpl.
  - by intros [= <- <-].
  - unfold bind at 1.
    set (c := if recursive args then _ else _).
    assert (Hc : registry_ok (res_state (c st))
                 ∧ ∀ ts0 st1, c st = Ok ts0 st1 → follows W st ts0 st1).
    { subst c. destruct (recursive args).
      - split; [by apply import_roots_run|].
        intros ts0 st1. by apply import_roots_follows.
      - split; [by apply importfolder_run|].
        intros ts0 st1. by apply importfolder_follows. }
    destruct Hc as [Hok1 Hf].
    destruct (c st) as [ts0 st1|]; [|done].
    unfold bind, ret.
    destruct (import_folders W args rest st1) as [ts1 st2|] eqn:Hr; [|done].
    intros [= <- <-]. apply (follows_app _ _ st1); [by apply Hf|].
    by apply IH.
Qed.


(** *** The EXIF reader and the rest of the program *)

Lemma copyfile_with_exif reader absolutepath filename library librarypath st :
  copyfile (with_exif W reader) absolutepath filename library librarypath st
  = copyfile W absolutepath filename library librarypath st.
Proof. reflexivity. Qed.

(** *** Registration, routing and counting *)


(** C7: when a run reaches its closing line, the reported number of
    unique files is the number of keys in the registry, which started empty
    and is also the number of files [hashfile] accepted; the reported
    number of copied files is the counter, which is the number of files
    that ended in [Moved] or [RenamedMoved].  These outcomes tell what
    happened: from the state the run started in to the one it ended in,
    one outcome after the other, a file that ended in [Moved] or
    [RenamedMoved] was renamed from its path to the free path the outcome
    names and the counter went up by one, any other file left the regular
    files and the counter alone; a file that was accepted put its fresh key
    into the registry, any other left the registry alone. *)
Theorem C7_counters args x ts unique copied st' :
  main W args (initial x) = Ok (ts, Summary unique copied) st' →
  unique = size (dom (hashes st')) ∧ unique = tally registered ts
  ∧ copied = copycount st' ∧ copied = tally moved ts
  ∧ follows W (initial x) ts st'.
Proof.
  unfold main. case_decide; [done|].
  destruct (forallb _ _); simpl; [|done]. unfold bind.
  pose proof (import_folders_run W args (folders args) (initial x)
                (initial_registry_ok x)) as (_ & _ & Hr).
  pose proof (import_folders_follows args (folders args) (initial x))
    as Hf.
  destruct (import_folders W args (folders args) (initial x)) as [ts0 st0|];
    [|done].
  intros [= <- <- <- <-]. simpl in Hr. rewrite map_size_empty in Hr.
  rewrite size_dom. split_and!; try lia.
  apply Hf; [apply initial_registry_ok | done].
Qed.

(** C9 (as amended): a regular file that passed the duplicate check is
    handled as a video exactly when its name ends in [.mp4].  Its date is
    then resolved from its name alone: it is placed in the folder of the
    date the video pattern finds and skipped when the pattern finds none,
    and whatever tag the EXIF reader would find in its bytes makes no
    difference to the outcome.  Every other file is handled as an image,
    whatever its name: its bytes are read and it is placed in the folder of
    the date in the tag the EXIF reader finds in them, and skipped when
    there is no tag or no date in it; so it is with any EXIF reader. *)
Theorem C9_classification directory library item st st1 :
  os_path_isfile (fs st) (os_path_join W directory item) = true →
  hashfile W (os_path_join W directory item) st = Ok Unique st1 →
  let absolutepath := os_path_join W directory item in
  let place g :=
    bind (copyfile W absolutepath item (os_path_join W library (date_path g))
            (date_path g)) (fun p => ret (Placed p)) st1 in
  (Str.endswith item ".mp4" = true →
     import_item W directory library item st
     = match vidregex_match item with
       | Some g => place g
       | None => Ok MissingSkipped st1
       end
     ∧ ∀ reader,
         import_item (with_exif W reader) directory library item st
         = import_item W directory library item st)
  ∧ (Str.endswith item ".mp4" = false →
     ∃ imagebuf,
       open_rb W (fs st) absolutepath = Some imagebuf
       ∧ import_item W directory library item st
         = match image_metadata (exif_DateTimeOriginal W imagebuf) with
           | Some g => place g
           | None => Ok MissingSkipped st1
           end
       ∧ ∀ reader,
           import_item (with_exif W reader) directory library item st
           = match image_metadata (reader imagebuf) with
             | Some g => place g
             | None => Ok MissingSkipped st1
             end).
Proof.
  intros Hfile Hhash. cbv zeta.
  set (absolutepath := os_path_join W directory item) in *.
  assert (Hroute : ∀ W',
    os_path_join W' = os_path_join W →
    hashfile W' absolutepath st = hashfile W absolutepath st →
    import_item W' directory library item st
    = (if Str.endswith item ".mp4"
       then copyvideo W' absolutepath item library st1
       else import_image W' absolutepath item library st1)).
  { intros W' Hj Hh. unfold import_item. cbv zeta. rewrite Hj.
    fold absolutepath. rewrite Hfile. simpl. by rewrite Hh, Hhash. }
  split.
  - intros Hmp4. split.
    + rewrite (Hroute W) by done. rewrite Hmp4. unfold copyvideo.
      by destruct (vidregex_match item).
    + intros reader. rewrite (Hroute W), (Hroute (with_exif W reader)) by done.
      by rewrite Hmp4.
  - intros Hmp4.
    assert (∃ data, open_rb W (fs st) absolutepath = Some data
                    ∧ fs st1 = fs st) as (data & Hopen & Hfs).
    { revert Hhash. unfold hashfile.
      destruct (open_rb W (fs st) absolutepath) as [data|]; [|done].
      intros Hh. exists data. split; [done|].
      repeat case_match; by simplify_eq. }
    exists data. split_and!; [done | |].
    + rewrite (Hroute W) by done. rewrite Hmp4. unfold import_image.
      rewrite Hfs, Hopen. by destruct (image_metadata _).
    + intros reader. rewrite (Hroute (with_exif W reader)) by done.
      rewrite Hmp4. unfold import_image.
      change (open_rb (with_exif W reader)) with (open_rb W).
      rewrite Hfs, Hopen. simpl. by destruct (image_metadata _).
Qed.

End Trace.

(** ** The bound on the search for a free name *)

Section Bound.

Context (W : World).

Lemma app_inv_tail' (a b c : string) : a +:+ c = b +:+ c → a = b.
Proof.
  revert b. induction a as [|u a IH]; intros [|v b].
  - done.
  - intros H%(f_equal String.length).
    rewrite !length_app' in H. simpl in H. lia.
  - intros H%(f_equal String.length).
    rewrite !length_app' in H. simpl in H. lia.
  - rewrite !app_cons. intros [= -> H]. f_equal. by apply IH.
Qed.

Lemma renamed_inj base ext i j :
  renamed base i ext = renamed base j ext → i = j.
Proof.
  unfold renamed. intros H.
  apply (inj (String.app base)) in H. apply (inj (String.app "-")) in H.
  apply app_inv_tail' in H. by apply (inj pretty) in H.
Qed.

(** When the bound cuts the loop, every candidate it went through is
    taken. *)
Lemma loop_bound_taken fuel x absolutepath filename library librarypath i :
  copyfile_loop W fuel x absolutepath filename library librarypath i
  = Fault LoopBound →
  fuel = 0
  ∨ ∃ base ext,
      Str.split "." filename !! 0 = Some base
      ∧ Str.split "." filename !! 1 = Some ext
      ∧ ∀ j, (i ≤ j)%nat → (j < i + (fuel - 1))%nat →
          os_path_exists x (os_path_join W library (renamed base j ext)) = true.
Proof.
  revert librarypath i.
  induction fuel as [|fuel IH]; intros librarypath i; [by left|].
  simpl. destruct (os_path_exists x librarypath) eqn:Hex; [|done].
  destruct (comparefiles W x absolutepath librarypath) as [[]|]; try done.
  destruct (Str.split "." filename !! 0) as [base|] eqn:H0; [|done].
  destruct (Str.split "." filename !! 1) as [ext|] eqn:H1; [|done].
  intros Hloop. right. exists base, ext. split_and!; try done.
  intros j Hij Hj. destruct fuel as [|fuel]; [lia|].
  assert (Hnext :
    os_path_exists x (os_path_join W library (renamed base i ext)) = true).
  { simpl in Hloop.
    destruct (os_path_exists x (os_path_join W library (renamed base i ext)));
      [done | discriminate Hloop]. }
  destruct (decide (j = i)) as [->|Hne]; [done|].
  apply IH in Hloop as [?|(base' & ext' & [= <-] & [= <-] & Hall)]; [done|].
  apply Hall; lia.
Qed.

(** The candidates are pairwise distinct paths, so only as many of them
    as the file system has entries can be taken: the bound is not reached. *)
Lemma copyfile_loop_bound x absolutepath filename library librarypath :
  (∀ base ext i j,
     os_path_join W library (renamed base i ext)
     = os_path_join W library (renamed base j ext) → i = j) →
  copyfile_loop W (S (S (size x))) x absolutepath filename library
    librarypath 1
  ≠ Fault LoopBound.
Proof.
  intros Hinj Hloop.
  apply loop_bound_taken in Hloop as [?|(base & ext & _ & _ & Hall)]; [done|].
  set (cand := λ j, os_path_join W library (renamed base j ext)).
  set (l := cand <$> seq 1 (S (size x))).
  assert (Hnd : NoDup l).
  { apply NoDup_fmap_2_strong; [|apply NoDup_seq].
    intros i j _ _ H. by apply (Hinj base ext). }
  assert (Hsub : (list_to_set l : gset string) ⊆ dom x).
  { intros q (j & -> & Hj)%elem_of_list_to_set%list_elem_of_fmap.
    apply elem_of_seq in Hj.
    assert (Hq : os_path_exists x (cand j) = true) by (apply Hall; lia).
    apply exists_stat in Hq as [n Hn]. apply stat_Some in Hn as [_ Hn].
    apply elem_of_dom. eauto. }
  apply subseteq_size in Hsub.
  rewrite size_list_to_set, size_dom in Hsub by done.
  unfold l in Hsub. rewrite length_fmap, length_seq in Hsub. lia.
Qed.

End Bound.

Lemma startswith_renamed base ext i j :
  Str.startswith (renamed base i ext) "/"
  = Str.startswith (renamed base j ext) "/".
Proof.
  unfold renamed, Str.startswith. destruct base as [|c base]; [done|].
  rewrite !app_cons. simpl. by case_decide.
Qed.

Lemma posixpath_join_renamed_inj library base ext i j :
  posixpath_join library (renamed base i ext)
  = posixpath_join library (renamed base j ext) → i = j.
Proof.
  unfold posixpath_join. rewrite (startswith_renamed base ext i j).
  destruct (Str.startswith _ _); [apply renamed_inj|].
  destruct (_ || _).
  - intros H%(inj (String.app library)). by eapply renamed_inj.
  - intros H%(inj (String.app library))%(inj (String.app "/")).
    by eapply renamed_inj.
Qed.

(** On the POSIX machine the search for a free name always ends by
    itself. *)
Lemma posix_loop_ends listing locked x absolutepath filename library
    librarypath :
  copyfile_loop (posix listing locked) (S (S (size x))) x absolutepath
    filename library librarypath 1
  ≠ Fault LoopBound.
Proof.
  apply copyfile_loop_bound. intros base ext i j.
  apply posixpath_join_renamed_inj.
Qed.

(** ** The program on a POSIX machine *)

(** The directory of a dated file is one [os.path.join] of the library
    and the single component [year\month\day]. *)
Lemma copyvideo_directory W absolutepath filename library g st :
  vidregex_match filename = Some g →
  copyvideo W absolutepath filename library st
  = bind (copyfile W absolutepath filename
            (os_path_join W library
               (year g +:+ "\" +:+ month g +:+ "\" +:+ day g))
            (date_path g))
         (fun p => ret (Placed p)) st.
Proof. intros H. unfold copyvideo. by rewrite H. Qed.

(** C2: where [os.path.join] joins with a slash, the video
    [VID_20230401_001.mp4] is not placed under [2023/04/01]: the program
    formats the date with backslashes, so the library gets one directory
    named [2023\04\01] and the video is moved into it. *)
Theorem C2_posix_destination :
  let r := importfolder Demo.W_one_video "/src" "/lib"
             (initial Demo.one_video) in
  r = Ok [Placed (Moved "/lib/2023\04\01/VID_20230401_001.mp4")] (res_state r)
  ∧ fs (res_state r) !! "/lib/2023\04\01" = Some Directory
  ∧ fs (res_state r) !! "/lib/2023\04\01/VID_20230401_001.mp4"
    = Some (Demo.regular "moov" 1)
  ∧ fs (res_state r) !! "/lib/2023/04/01/VID_20230401_001.mp4" = None
  ∧ fs (res_state r) !! "/lib/2023" = None.
Proof. vm_compute. repeat split. Qed.

(** C3: a name without a dot whose place is taken by different content
    makes [copyfile] raise [IndexError], which nothing catches: the run
    ends there and the video listed next is never looked at.  A name with
    two dots is cut at the first and loses its extension: [a.b.jpg] is
    placed as [a-1.b].  And a picture whose place is taken by different
    content of the same size and modification time is taken for a copy of
    it and left in the source folder. *)
Theorem C3_names_without_one_dot :
  importfolder Demo.W_no_dot "/src" "/lib" (initial Demo.no_dot)
  = Raise IndexError
      (set_hashes (initial Demo.no_dot)
         {[ (Demo.jpeg "new", 28) := "/src/IMG0001" ]})
  ∧ (let r := importfolder Demo.W_two_dots "/src" "/lib"
                (initial Demo.two_dots) in
     r = Ok [Placed (RenamedMoved "/lib/2022\12\25/a-1.b")] (res_state r)
     ∧ fs (res_state r) !! "/lib/2022\12\25/a-1.b"
       = Some (Demo.regular (Demo.jpeg "new") 2)
     ∧ fs (res_state r) !! "/lib/2022\12\25/a.b-1.jpg" = None)
  ∧ (let r := importfolder Demo.W_same_signature "/src" "/lib"
                (initial Demo.same_signature) in
     r = Ok [Placed (SkippedIdentical "/lib/2022\12\25/b.jpg")] (res_state r)
     ∧ fs (res_state r) = Demo.same_signature).
Proof. vm_compute. repeat split. Qed.

(** C8: a file that cannot be opened makes [hashfile] raise [OSError],
    which nothing catches: [importfolder] and [main] end there, and the
    video listed after it stays in the source folder although nothing is
    wrong with it. *)
Theorem C8_read_failure_is_fatal :
  importfolder Demo.W_locked_first "/src" "/lib" (initial Demo.locked_first)
  = Raise OSError (initial Demo.locked_first)
  ∧ main Demo.W_locked_first (Demo.args "/src") (initial Demo.locked_first)
    = Raise OSError (initial Demo.locked_first)
  ∧ vidregex_match Demo.video
    = Some {| year := "2023"; month := "04"; day := "01" |}
  ∧ Demo.locked_first !! "/src/VID_20230401_001.mp4"
    = Some (Demo.regular "moov" 1).
Proof. vm_compute. repeat split. Qed.

(** ** Where the claims as stated fail *)

(** C5 as stated: [VID_20230401_001.avi] has the shape
    [VID_<8-digit-date>_<numeric-suffix>.<ext>], yet no date is found for
    it, and in a folder it is skipped. *)
Lemma C5_counterexample :
  spec_video_shape "VID_20230401_001.avi"
  = Some {| year := "2023"; month := "04"; day := "01" |}
  ∧ vidregex_match "VID_20230401_001.avi" = None
  ∧ ∃ st', importfolder Demo.W_avi "/src" "/lib" (initial Demo.avi)
           = Ok [MissingSkipped] st'
           ∧ fs st' = Demo.avi.
Proof.
  split_and!; [reflexivity | reflexivity |].
  eexists. vm_compute. split; reflexivity.
Qed.

(** C6 as stated: a value with a tab between date and time does not have
    the exact form [YYYY:MM:DD HH:MM:SS], yet its date is found. *)
Lemma C6_counterexample :
  spec_date_pattern ("2022:12:25" +:+ TAB +:+ "10:00:00") = None
  ∧ image_metadata (Some ("2022:12:25" +:+ TAB +:+ "10:00:00"))
    = Some {| year := "2022"; month := "12"; day := "25" |}.
Proof. split; reflexivity. Qed.

(** C9 as stated: [clip.mp4] does not have the shape of a video name and
    its bytes carry a date tag, yet it is not handled as an image: handled
    as one it would be moved to the folder of its date, while the program
    skips it. *)
Lemma C9_counterexample :
  let W := Demo.W_misnamed in
  let st := initial Demo.misnamed in
  spec_video_shape "clip.mp4" = None
  ∧ vidregex_match "clip.mp4" = None
  ∧ (∃ st', import_item W "/src" "/lib" "clip.mp4" st = Ok MissingSkipped st'
            ∧ fs st' = Demo.misnamed)
  ∧ ∃ st', bind (hashfile W "/src/clip.mp4")
             (fun _ => import_image W "/src/clip.mp4" "clip.mp4" "/lib") st
           = Ok (Placed (Moved "/lib/2022\12\25/clip.mp4")) st'.
Proof.
  split_and!; [reflexivity | reflexivity | |]; eexists; vm_compute; split_and?;
    reflexivity.
Qed.

(** A name in digits of another script is taken as a date. *)
Example arabic_is_moved :
  ∃ st', import_item Demo.W_arabic "/src" "/lib" "VID_٢٠٢٣٠٤٠١_001.mp4"
           (initial Demo.arabic)
         = Ok (Placed (Moved "/lib/٢٠٢٣\٠٤\٠١/VID_٢٠٢٣٠٤٠١_001.mp4")) st'.
Proof. eexists. vm_compute. reflexivity. Qed.

(** The pattern of [copyvideo] is anchored at the start only. *)
Example part_is_moved :
  spec_video_shape "VID_20230401_001.mp4.part.mp4" = None
  ∧ ∃ st',
      import_item Demo.W_part "/src" "/lib" "VID_20230401_001.mp4.part.mp4"
        (initial Demo.part)
      = Ok (Placed (Moved "/lib/2023\04\01/VID_20230401_001.mp4.part.mp4"))
           st'.
Proof. split; [reflexivity|]. eexists. vm_compute. reflexivity. Qed.

(** A name that begins like a video's and does not end in [.mp4] is
    handled as an image: the date is that of the tag. *)
Example backup_is_an_image :
  vidregex_match "VID_20230401_001.mp4.bak"
  = Some {| year := "2023"; month := "04"; day := "01" |}
  ∧ ∃ st',
      import_item Demo.W_backup "/src" "/lib" "VID_20230401_001.mp4.bak"
        (initial Demo.backup)
      = Ok (Placed (Moved "/lib/2022\12\25/VID_20230401_001.mp4.bak")) st'.
Proof. split; [reflexivity|]. eexists. vm_compute. reflexivity. Qed.

(** ** The theorems at concrete folders *)


Lemma C7_witness :
  let W := Demo.W_one_video in
  let r := main W (Demo.args "/src") (initial Demo.one_video) in
  let ts := [Placed (Moved "/lib/2023\04\01/VID_20230401_001.mp4")] in
  1 = size (dom (hashes (res_state r)))
  ∧ 1 = tally registered ts
  ∧ 1 = copycount (res_state r)
  ∧ 1 = tally moved ts
  ∧ follows W (initial Demo.one_video) ts (res_state r).
Proof.
  intros W r ts.
  apply (C7_counters W (Demo.args "/src") Demo.one_video).
  vm_compute. reflexivity.
Defined.

Lemma C9_witness :
  let W := Demo.W_misnamed in
  let st := initial Demo.misnamed in
  let st1 := res_state (hashfile W "/src/clip.mp4" st) in
  import_item W "/src" "/lib" "clip.mp4" st = Ok MissingSkipped st1
  ∧ ∀ reader,
      import_item (with_exif W reader) "/src" "/lib" "clip.mp4" st
      = import_item W "/src" "/lib" "clip.mp4" st.
Proof.
  intros W st st1.
  destruct (C9_classification W "/src" "/lib" "clip.mp4" st st1
              eq_refl eq_refl) as [H _].
  exact (H eq_refl).
Defined.


Lemma C5_witness :
  vidregex_match "clip.mp4" = None
  ∧ copyvideo Demo.W_misnamed "/src/clip.mp4" "clip.mp4" "/lib"
      (initial Demo.misnamed)
    = Ok MissingSkipped (initial Demo.misnamed).
Proof.
  split; [reflexivity|].
  apply (C5_video_date Demo.W_misnamed "clip.mp4"). reflexivity.
Defined.

Lemma C6_witness :
  image_metadata None = None
  ∧ import_image Demo.W_one_video "/src/VID_20230401_001.mp4" Demo.video
      "/lib" (initial Demo.one_video)
    = Ok MissingSkipped (initial Demo.one_video).
Proof.
  split; [reflexivity|].
  apply (C6_image_date Demo.W_one_video None) with (imagebuf := "moov");
    reflexivity.
Defined.



(** ** Reading in chunks *)

Section Chunks.

Lemma read_spec chunksize fobj chunk fobj' :
  read chunksize fobj = (chunk, fobj') →
  fobj = chunk +:+ fobj'
  ∧ String.length chunk = chunksize `min` String.length fobj.
Proof.
  revert fobj chunk fobj'.
  induction chunksize as [|n IH]; intros [|c rest] chunk fobj'; simpl;
    try by intros [= <- <-].
  destruct (read n rest) as [a b] eqn:Hr. intros [= <- <-].
  destruct (IH _ _ _ Hr) as [-> Hl]. rewrite app_cons. simpl.
  rewrite length_app' in *. split; [done | lia].
Qed.

Lemma truthy_false s : Str.truthy s = false ↔ s = "".
Proof.
  unfold Str.truthy. rewrite negb_false_iff, bool_decide_eq_true. done.
Qed.

Lemma truthy_true s : Str.truthy s = true ↔ s ≠ "".
Proof.
  unfold Str.truthy. rewrite negb_true_iff, bool_decide_eq_false. done.
Qed.

Lemma length_zero (s : string) : String.length s = 0 → s = "".
Proof. by destruct s. Qed.

Lemma chunkreader_go_concat fuel fobj chunksize :
  (0 < chunksize)%nat → (String.length fobj < fuel)%nat →
  join_chunks (chunkreader_go fuel fobj chunksize) = fobj.
Proof.
  intros Hpos. revert fobj.
  induction fuel as [|fuel IH]; intros fobj Hlen; [lia|]. simpl.
  destruct (read chunksize fobj) as [chunk fobj'] eqn:Hr.
  apply read_spec in Hr as [-> Hl]. rewrite length_app' in *.
  destruct (Str.truthy chunk) eqn:Ht; simpl.
  - apply truthy_true in Ht.
    assert (String.length chunk ≠ 0)%nat by (by intros ?%length_zero).
    unfold join_chunks in *. rewrite IH by lia. done.
  - apply truthy_false in Ht. subst chunk. simpl in *.
    assert (String.length fobj' = 0)%nat as ->%length_zero by lia. done.
Qed.

(** X1: what [chunkreader] yields puts the file back together, byte for byte
    and in order, whatever the positive chunk size; with chunk size 0 the
    first [read] is empty and nothing is yielded. *)
Theorem chunkreader_whole fobj chunksize :
  ((0 < chunksize)%nat → join_chunks (chunkreader fobj chunksize) = fobj)
  ∧ chunkreader fobj 0 = [].
Proof.
  split.
  - intros Hpos. apply chunkreader_go_concat; [done | lia].
  - unfold chunkreader. simpl. by destruct fobj.
Qed.

Lemma chunkreader_go_sizes fuel fobj chunksize :
  (String.length fobj < fuel)%nat →
  let chunks := chunkreader_go fuel fobj chunksize in
  (∀ i c, chunks !! i = Some c →
     c ≠ "" ∧ (String.length c ≤ chunksize)%nat
     ∧ ((S i < length chunks)%nat → String.length c = chunksize))
  ∧ (length chunks * chunksize < String.length fobj + chunksize
     ∨ chunksize = 0)%nat
  ∧ (String.length fobj ≤ length chunks * chunksize ∨ chunksize = 0)%nat.
Proof.
  revert fobj.
  induction fuel as [|fuel IH]; intros fobj Hlen; [lia|]. simpl.
  destruct (read chunksize fobj) as [chunk fobj'] eqn:Hr.
  apply read_spec in Hr as [-> Hl]. rewrite length_app' in *.
  destruct (Str.truthy chunk) eqn:Ht; simpl.
  - apply truthy_true in Ht.
    assert (String.length chunk ≠ 0)%nat by (by intros ?%length_zero).
    destruct (IH fobj' ltac:(lia)) as (Hall & Hup & Hlow).
    split_and!.
    + intros [|i] c; simpl.
      * intros [= <-]. split_and!; [done | lia |].
        intros Hmore.
        destruct (chunkreader_go fuel fobj' chunksize) as [|c' l] eqn:Hgo;
          [simpl in Hmore; lia|].
        destruct (Hall 0 c' eq_refl) as (Hc' & _ & _).
        destruct fuel as [|fuel']; [done|]. simpl in Hgo.
        destruct (read chunksize fobj') as [a b] eqn:Hr'.
        apply read_spec in Hr' as [-> Hl'].
        destruct (Str.truthy a) eqn:Ha; [|done]. simpl in Hgo.
        injection Hgo as <- _. rewrite length_app' in *.
        assert (String.length a ≠ 0)%nat by (by intros ?%length_zero). lia.
      * intros Hc. destruct (Hall i c Hc) as (? & ? & Hfull).
        split_and!; [done | done |]. intros ?. apply Hfull. lia.
    + destruct (decide (chunksize = 0)) as [->|]; [by right | left].
      destruct Hup as [Hup|?]; [|done].
      destruct (decide (String.length chunk = chunksize)); [lia|].
      assert (length (chunkreader_go fuel fobj' chunksize) = 0)%nat as ->
        by nia.
      lia.
    + destruct (decide (chunksize = 0)) as [->|]; [by right | left].
      destruct Hlow as [?|?]; [|done]. lia.
  - apply truthy_false in Ht. subst chunk. simpl in *.
    split_and!; [done | lia | lia].
Qed.

(** X2: every chunk [chunkreader] yields is non-empty and at most [chunksize]
    long, every chunk but the last is exactly [chunksize] long, and for a
    positive chunk size there are as many chunks as the length of the file
    divided by it, rounded up. *)
Theorem chunkreader_sizes fobj chunksize :
  let chunks := chunkreader fobj chunksize in
  (∀ i c, chunks !! i = Some c →
     c ≠ "" ∧ (String.length c ≤ chunksize)%nat
     ∧ ((S i < length chunks)%nat → String.length c = chunksize))
  ∧ ((0 < chunksize)%nat →
     (length chunks * chunksize < String.length fobj + chunksize)%nat
     ∧ (String.length fobj ≤ length chunks * chunksize)%nat).
Proof.
  intros chunks.
  destruct (chunkreader_go_sizes (S (String.length fobj)) fobj chunksize
              ltac:(lia)) as (Hall & Hup & Hlow).
  split; [exact Hall|]. intros Hpos. fold (chunkreader fobj chunksize) in *.
  fold chunks in Hup, Hlow. lia.
Qed.

Lemma fold_update chunks acc :
  fold_left hashobj_update chunks acc = acc +:+ join_chunks chunks.
Proof.
  revert acc. induction chunks as [|c chunks IH]; intros acc; simpl.
  - clear. induction acc as [|a acc IH]; [done|]. rewrite app_cons. by f_equal.
  - rewrite IH. unfold hashobj_update, join_chunks. simpl.
    clear. induction acc as [|a acc IH]; [done|]. rewrite !app_cons. by f_equal.
Qed.

(** X3: feeding the digest chunk by chunk is feeding it the file: [hashfile]
    with its loop written out registers every file under the digest of its
    whole content and its size, and does to every state what [hashfile]
    does. *)
Theorem hashfile_streamed_whole W filename st :
  hashfile_streamed W filename st = hashfile W filename st.
Proof.
  unfold hashfile_streamed, hashfile.
  destruct (open_rb W (fs st) filename) as [fileobj|]; [|done].
  rewrite fold_update. unfold chunkreader.
  rewrite chunkreader_go_concat by lia. done.
Qed.

End Chunks.

Example chunkreader_ex :
  chunkreader "abcdefg" 3 = ["abc"; "def"; "g"]
  ∧ chunkreader "abcdef" 3 = ["abc"; "def"]
  ∧ chunkreader "" 3 = [].
Proof. repeat split. Qed.

(** ** The depth of [os.makedirs] *)

Section Makedirs.

Context (W : World).

Hypothesis split_shorter : ∀ name head tail,
  split_last W name = (head, tail) → head ≠ "" → tail ≠ "" →
  (String.length head < String.length name)%nat.

Lemma os_makedirs_go_fuel fuel fuel' x name :
  (String.length name < fuel)%nat → (String.length name < fuel')%nat →
  os_makedirs_go W fuel x name = os_makedirs_go W fuel' x name.
Proof.
  revert fuel' x name.
  induction fuel as [|fuel IH]; intros [|fuel'] x name Hf Hf'; try lia.
  simpl. destruct (split_last W name) as [head tail] eqn:Hs.
  destruct (negb (bool_decide (head = "")) && negb (bool_decide (tail = ""))
            && negb (os_path_exists x head)) eqn:Hc; [|done].
  apply andb_prop in Hc as [[Hh Ht]%andb_prop _].
  apply negb_true_iff, bool_decide_eq_false in Hh, Ht.
  pose proof (split_shorter name head tail Hs Hh Ht).
  rewrite (IH fuel' x head) by lia. done.
Qed.

(** With a [split] whose head is shorter than the path, the recursion of
    [os.makedirs] ends by itself: more fuel changes nothing. *)
Lemma os_makedirs_fuel fuel x name :
  (String.length name < fuel)%nat →
  os_makedirs_go W fuel x name = os_makedirs W x name.
Proof. intros Hf. unfold os_makedirs. apply os_makedirs_go_fuel; lia. Qed.

End Makedirs.

Lemma cut_last_slash_length p h t :
  cut_last_slash p = (h, t) →
  (String.length h + String.length t = String.length p)%nat.
Proof.
  revert h t. induction p as [|c p IH]; intros h t; simpl.
  - by intros [= <- <-].
  - destruct (cut_last_slash p) as [h' t']. specialize (IH h' t' eq_refl).
    case_decide as Hh.
    + subst h'. simpl in IH. case_decide; intros [= <- <-]; simpl; lia.
    + intros [= <- <-]. simpl. lia.
Qed.

Lemma rstrip_slash_length s :
  (String.length (rstrip_slash s) ≤ String.length s)%nat.
Proof.
  induction s as [|c s IH]; simpl; [done|].
  repeat case_decide; simpl; lia.
Qed.

Lemma posixpath_split_length p h t :
  posixpath_split p = (h, t) →
  (String.length h + String.length t ≤ String.length p)%nat.
Proof.
  unfold posixpath_split. destruct (cut_last_slash p) as [h' t'] eqn:Hc.
  apply cut_last_slash_length in Hc.
  pose proof (rstrip_slash_length h').
  destruct (_ && _); intros [= <- <-]; lia.
Qed.

Lemma posix_split_shorter listing locked name head tail :
  split_last (posix listing locked) name = (head, tail) →
  head ≠ "" → tail ≠ "" →
  (String.length head < String.length name)%nat.
Proof.
  unfold split_last. simpl.
  destruct (posixpath_split name) as [h t] eqn:Hs.
  apply posixpath_split_length in Hs. case_decide as Ht.
  - intros Hs'%posixpath_split_length _ Htail.
    destruct tail; [done|]. simpl in *. lia.
  - intros [= <- <-] _ _. destruct t; [done|]. simpl in *. lia.
Qed.

Lemma posix_makedirs_fuel listing locked fuel x name :
  (String.length name < fuel)%nat →
  os_makedirs_go (posix listing locked) fuel x name
  = os_makedirs (posix listing locked) x name.
Proof. apply os_makedirs_fuel, posix_split_shorter. Qed.

Example posixpath_split_ex :
  posixpath_split <$> ["a/b"; "/a/b/"; "/"; "a"; ""; "///a"; "/lib/2023\04\01"]
  = [("a", "b"); ("/a/b", ""); ("/", ""); ("", "a"); ("", ""); ("///", "a");
     ("/lib", "2023\04\01")].
Proof. reflexivity. Qed.

(** [os.makedirs] makes the library before the folder of the date, and
    leaves it behind when the folder cannot be made. *)
Example validatedirectory_leaves_ancestors :
  validatedirectory Demo.W_no_leaf "/lib/archive/2023\04\01"
    (initial Demo.one_video)
  = (false, initial (<["/lib/archive" := Directory]> Demo.one_video)).
Proof. vm_compute. reflexivity. Qed.

Example validatedirectory_makes_ancestors :
  validatedirectory Demo.W_one_video "/lib/archive/2023\04\01"
    (initial Demo.one_video)
  = (true, initial (<["/lib/archive/2023\04\01" := Directory]>
                      (<["/lib/archive" := Directory]> Demo.one_video))).
Proof. vm_compute. reflexivity. Qed.

(** ** More on the single functions *)

Section Functions.

Context (W : World).

Implicit Types (st : State) (x : FS).

(** X4: a file [hashfile] has just accepted is from then on a duplicate of
    itself: the registry holds its key under its own path, file system and
    counter are as before, and hashing it again reports [Duplicate] of that
    path and changes nothing. *)
Theorem hashfile_again filename st st1 :
  hashfile W filename st = Ok Unique st1 →
  fs st1 = fs st ∧ copycount st1 = copycount st
  ∧ (∃ data, open_rb W (fs st) filename = Some data
       ∧ hashes st1 = <[key_of W data := filename]> (hashes st))
  ∧ hashfile W filename st1 = Ok (Duplicate filename) st1.
Proof.
  unfold hashfile at 1.
  destruct (open_rb W (fs st) filename) as [data|] eqn:Hopen; [|done].
  assert (Hst1 : set_hashes st (<[key_of W data := filename]> (hashes st)) = st1
    → fs st1 = fs st ∧ copycount st1 = copycount st
      ∧ (∃ data, open_rb W (fs st) filename = Some data
           ∧ hashes st1 = <[key_of W data := filename]> (hashes st))
      ∧ hashfile W filename st1 = Ok (Duplicate filename) st1).
  { intros <-. split_and!; try done; [by exists data|].
    unfold hashfile. simpl. rewrite Hopen.
    fold (key_of W data). rewrite lookup_insert_eq.
    apply open_rb_nonempty in Hopen.
    by rewrite (proj2 (truthy_true filename)). }
  fold (key_of W data). rewrite Hopen in Hst1.
  destruct (hashes st !! key_of W data) as [d|]; [destruct (Str.truthy d)|];
    intros [= H]; try done; by apply Hst1.
Qed.


(** X6: when [copyfile] reports a move, the target was free after
    [validatedirectory], the entry of the source is now there, bytes and
    modification time included, the source path is gone, nothing else has
    changed, the counter is one higher and the registry is as it was. *)
Theorem copyfile_moved absolutepath filename library librarypath st pl st' :
  copyfile W absolutepath filename library librarypath st = Ok pl st' →
  moved (Placed pl) = true →
  let x1 := fs (validatedirectory W library st).2 in
  ∃ p n,
    (pl = Moved p ∨ pl = RenamedMoved p)
    ∧ x1 !! p = None ∧ x1 !! absolutepath = Some n ∧ p ≠ absolutepath
    ∧ fs st' = <[p := n]> (delete absolutepath x1)
    ∧ fs st' !! p = Some n ∧ fs st' !! absolutepath = None
    ∧ copycount st' = S (copycount st) ∧ hashes st' = hashes st.
Proof.
  intros Hrun Hmv x1.
  destruct (copyfile_cases W absolutepath filename library librarypath st)
    as (b & st1 & Hv & Hc).
  subst x1. rewrite Hv. simpl.
  apply validatedirectory_grows in Hv as (_ & Hh & Hcc).
  destruct Hc as [(_ & Hr)|[(_ & e & Hr)|[(_ & q & Hr)|[(_ & q & Hr)|
    (_ & p & n & pl' & Hpl & Hex & Hn & Hp & Hr)]]]];
    rewrite Hr in Hrun; try done; try (injection Hrun as <- <-; done).
  injection Hrun as <- <-. exists p, n. simpl.
  apply stat_Some in Hn as [Ha Hn].
  assert (Hfree : fs st1 !! p = None).
  { unfold os_path_exists in Hex. rewrite stat_lookup in Hex by done.
    by destruct (fs st1 !! p). }
  assert (Hne : p ≠ absolutepath) by congruence.
  split_and!; try done.
  - by rewrite lookup_insert_eq.
  - rewrite lookup_insert_ne by done. by rewrite lookup_delete_eq.
  - by rewrite Hcc.
Qed.

(** X7: however [copyfile] ends, also when it raises, whatever was at a path
    other than the source is still there: it never writes over an entry
    and removes none but the source. *)
Theorem copyfile_overwrites_nothing absolutepath filename library librarypath
    st q n :
  q ≠ absolutepath → fs st !! q = Some n →
  fs (res_state (copyfile W absolutepath filename library librarypath st)) !! q
  = Some n.
Proof. apply copyfile_keeps_others. Qed.

End Functions.

(** ** The search for a free name *)

Section Search.

Context (W : World).

Implicit Types (st : State) (x : FS).

Lemma loop_free_shape fuel x absolutepath filename library librarypath i0 p i :
  copyfile_loop W fuel x absolutepath filename library librarypath i0
  = Free p i →
  (i = i0 ∧ p = librarypath)
  ∨ ((i0 < i)%nat
     ∧ os_path_exists x librarypath = true
     ∧ comparefiles W x absolutepath librarypath = Some false
     ∧ (∃ name, candidate filename (i - 1) = Some name
                ∧ p = os_path_join W library name)
     ∧ ∀ k, (i0 ≤ k)%nat → (k < i - 1)%nat →
         ∃ name, candidate filename k = Some name
           ∧ os_path_exists x (os_path_join W library name) = true
           ∧ comparefiles W x absolutepath (os_path_join W library name)
             = Some false).
Proof.
  revert librarypath i0.
  induction fuel as [|fuel IH]; intros librarypath i0; simpl; [done|].
  destruct (os_path_exists x librarypath) eqn:Hex.
  2: { intros [= <- <-]. by left. }
  destruct (comparefiles W x absolutepath librarypath) as [[]|] eqn:Hcmp;
    try done.
  destruct (Str.split "." filename !! 0) as [base|] eqn:H0; [|done].
  destruct (Str.split "." filename !! 1) as [ext|] eqn:H1; [|done].
  assert (Hcand : ∀ k, candidate filename k = Some (renamed base k ext)).
  { intros k. unfold candidate. by rewrite H0, H1. }
  intros [[-> ->]|(Hlt & Hex' & Hcmp' & Hname & Hall)]%IH; right.
  - split_and!; try done; [lia | |].
    + exists (renamed base i0 ext). split; [|done].
      rewrite <- Hcand. f_equal. lia.
    + intros k ??. lia.
  - split_and!; try done; [lia|].
    intros k Hk1 Hk2. destruct (decide (k = i0)) as [->|].
    + exists (renamed base i0 ext). by rewrite Hcand.
    + apply Hall; lia.
Qed.

(** X8: the name [copyfile] moves a file to is the first free one in the order
    the file's own name, then suffix 1, 2, ...: the target is free; when
    the loop counter is still 1 it is the file's own name; otherwise the
    own name is taken, the target carries suffix [i - 1], and every smaller
    suffix is taken by a file the comparison told apart from the source. *)
Theorem copyfile_first_free fuel x absolutepath filename library librarypath
    p i :
  copyfile_loop W fuel x absolutepath filename library librarypath 1
  = Free p i →
  os_path_exists x p = false
  ∧ (1 ≤ i)%nat
  ∧ (i = 1 → p = librarypath)
  ∧ (i ≠ 1 →
     os_path_exists x librarypath = true
     ∧ ∃ name, candidate filename (i - 1) = Some name
               ∧ p = os_path_join W library name)
  ∧ ∀ k, (1 ≤ k)%nat → (k < i - 1)%nat →
      ∃ name, candidate filename k = Some name
        ∧ os_path_exists x (os_path_join W library name) = true
        ∧ comparefiles W x absolutepath (os_path_join W library name)
          = Some false.
Proof.
  intros Hloop. split; [by eapply loop_free|].
  apply loop_free_shape in Hloop
    as [[-> ->]|(Hlt & Hex & _ & Hname & Hall)].
  - split_and!; try done. intros k ??. lia.
  - split_and!; try done; lia.
Qed.

Lemma loop_more_fuel fuel k x absolutepath filename library librarypath i :
  copyfile_loop W fuel x absolutepath filename library librarypath i
  ≠ Fault LoopBound →
  copyfile_loop W (fuel + k) x absolutepath filename library librarypath i
  = copyfile_loop W fuel x absolutepath filename library librarypath i.
Proof.
  revert librarypath i.
  induction fuel as [|fuel IH]; intros librarypath i; simpl; [done|].
  destruct (os_path_exists x librarypath); [|done].
  destruct (comparefiles W x absolutepath librarypath) as [[]|]; try done.
  destruct (Str.split "." filename !! 0); [|done].
  destruct (Str.split "." filename !! 1); [|done].
  apply IH.
Qed.

(** X9: the [while True] of [copyfile] ends: where [os.path.join] keeps the
    candidate names apart, the search comes to its decision within two turns
    more than the file system has entries, and allowing it more turns
    changes nothing. *)
Theorem copyfile_loop_ends fuel x absolutepath filename library librarypath :
  (∀ base ext i j,
     os_path_join W library (renamed base i ext)
     = os_path_join W library (renamed base j ext) → i = j) →
  (S (S (size x)) ≤ fuel)%nat →
  copyfile_loop W fuel x absolutepath filename library librarypath 1
  ≠ Fault LoopBound
  ∧ copyfile_loop W fuel x absolutepath filename library librarypath 1
    = copyfile_loop W (S (S (size x))) x absolutepath filename library
        librarypath 1.
Proof.
  intros Hinj Hfuel.
  pose proof (copyfile_loop_bound W x absolutepath filename library
                librarypath Hinj) as Hend.
  replace fuel with (S (S (size x)) + (fuel - S (S (size x))))%nat by lia.
  rewrite loop_more_fuel by done. done.
Qed.

Lemma split_nonempty sep s : Str.split sep s ≠ [].
Proof.
  destruct s as [|c s]; simpl; [done|]. case_decide; [done|].
  by destruct (Str.split sep s).
Qed.

Lemma split_dot a b :
  (2 ≤ length (Str.split "." (a +:+ "." +:+ b)))%nat.
Proof.
  induction a as [|c a IH].
  - change ("" +:+ "." +:+ b) with (String "."%char b). simpl.
    pose proof (split_nonempty "." b).
    destruct (Str.split "." b); [done | simpl; lia].
  - rewrite app_cons. simpl. case_decide.
    + pose proof (split_nonempty "." (a +:+ "." +:+ b)).
      destruct (Str.split "." (a +:+ "." +:+ b)); [done | simpl; lia].
    + destruct (Str.split "." (a +:+ "." +:+ b)); simpl in *; lia.
Qed.

Lemma split_no_dot s :
  (∀ a b, s ≠ a +:+ "." +:+ b) → Str.split "." s = [s].
Proof.
  induction s as [|c s IH]; intros Hno; simpl; [done|].
  case_decide as Hc.
  - subst c. by destruct (Hno "" s).
  - rewrite IH; [done|]. intros a b ->. by apply (Hno (String c a) b).
Qed.

Lemma loop_index_error fuel x absolutepath filename library librarypath i :
  copyfile_loop W fuel x absolutepath filename library librarypath i
  = Fault IndexError →
  (length (Str.split "." filename) < 2)%nat.
Proof.
  revert librarypath i.
  induction fuel as [|fuel IH]; intros librarypath i; simpl; [done|].
  destruct (os_path_exists x librarypath); [|done].
  destruct (comparefiles W x absolutepath librarypath) as [[]|]; try done.
  destruct (Str.split "." filename) as [|b [|e l]] eqn:Hs; simpl;
    [lia | lia |].
  apply IH.
Qed.

(** X10: [copyfile] raises [IndexError] only for a name without a dot; and it
    does raise it for such a name as soon as the place of that name in the
    library is taken by a file the comparison tells apart from the source. *)
Theorem copyfile_index_error absolutepath filename library librarypath st :
  (∀ st', copyfile W absolutepath filename library librarypath st
          = Raise IndexError st' →
     ∀ a b, filename ≠ a +:+ "." +:+ b)
  ∧ ((∀ a b, filename ≠ a +:+ "." +:+ b) →
     os_path_exists (fs st) library = true →
     os_path_exists (fs st) (os_path_join W library filename) = true →
     comparefiles W (fs st) absolutepath (os_path_join W library filename)
     = Some false →
     copyfile W absolutepath filename library librarypath st
     = Raise IndexError st).
Proof.
  split.
  - intros st' Hrun a b ->. unfold copyfile in Hrun.
    destruct (validatedirectory W library st) as [[] st1]; [|done].
    destruct (copyfile_loop _ _ _ _ _ _ _ _) as [p i|p|e] eqn:Hloop.
    + by destruct (os_rename W (fs st1) absolutepath p).
    + done.
    + injection Hrun as -> _. apply loop_index_error in Hloop.
      pose proof (split_dot a b). lia.
  - intros Hno Hdir Hex Hcmp. unfold copyfile, validatedirectory.
    rewrite Hdir. cbn [copyfile_loop]. rewrite Hex, Hcmp.
    by rewrite (split_no_dot filename Hno).
Qed.

End Search.

(** ** More on whole runs *)

Section Runs.

Context (W : World).

Implicit Types (st : State) (x : FS).

Lemma hashfile_unique_inv filename st st0 :
  hashfile W filename st = Ok Unique st0 →
  fs st0 = fs st ∧ copycount st0 = copycount st
  ∧ ∃ data, open_rb W (fs st) filename = Some data
      ∧ hashes st0 = <[key_of W data := filename]> (hashes st).
Proof.
  unfold hashfile.
  destruct (open_rb W (fs st) filename) as [data|]; [|done].
  fold (key_of W data).
  destruct (hashes st !! key_of W data) as [d|]; [destruct (Str.truthy d)|];
    intros [= <-]; split_and!; try done; by exists data.
Qed.

Lemma hashfile_fs filename st :
  fs (res_state (hashfile W filename st)) = fs st.
Proof.
  unfold hashfile. destruct (open_rb W (fs st) filename); [|done].
  destruct (hashes st !! _) as [d|]; [|done]. by destruct (Str.truthy d).
Qed.

Lemma route_place absolutepath item library st :
  place_ok st
    (if Str.endswith item ".mp4"
     then copyvideo W absolutepath item library st
     else import_image W absolutepath item library st).
Proof.
  destruct (Str.endswith item ".mp4");
    [apply copyvideo_place | apply import_image_place].
Qed.

(** X11: within one run a file is looked at once: after a file was registered
    and not moved (its date did not resolve, its directory could not be
    made, its rename failed, or the library already had it), importing the
    same entry again skips it as a duplicate of itself and changes nothing. *)
Theorem import_item_again directory library item st t st1 :
  registry_ok st →
  import_item W directory library item st = Ok t st1 →
  registered t = true → moved t = false →
  ∀ library',
    import_item W directory library' item st1
    = Ok (DuplicateSkipped (os_path_join W directory item)) st1.
Proof.
  intros Hok Hrun Hreg Hmv library'.
  pose proof (import_item_step W directory library item st Hok)
    as (_ & Hok1 & _).
  rewrite Hrun in Hok1. simpl in Hok1.
  unfold import_item in Hrun.
  set (absolutepath := os_path_join W directory item) in *.
  destruct (os_path_isfile (fs st) absolutepath); simpl in Hrun;
    [|by injection Hrun as <- _].
  destruct (hashfile W absolutepath st) as [[|d] st0|e st0] eqn:Hh;
    [|by injection Hrun as <- _|done].
  apply hashfile_unique_inv in Hh as (Hfs & _ & data & Hopen & Hh).
  pose proof (route_place absolutepath item library st0) as (Hh1 & Hr).
  rewrite Hrun in Hh1, Hr. simpl in Hh1, Hr. destruct Hr as (_ & _ & Hsub).
  specialize (Hsub Hmv). rewrite Hfs in Hsub.
  apply (import_item_duplicate W _ _ _ _ data); [done | |].
  - apply open_rb_Some in Hopen as (f & Hf & Hread & ->).
    apply open_rb_Some. exists f. split_and!; try done.
    apply stat_Some in Hf as [Hne Hf]. rewrite stat_lookup by done.
    by eapply lookup_weaken.
  - rewrite Hh1, Hh. apply lookup_insert_eq.
Qed.

(** *** No file is lost *)

Lemma same_files_refl x : same_files x x.
Proof. split; [done | eauto]. Qed.

Lemma same_files_trans x1 x2 x3 :
  same_files x1 x2 → same_files x2 x3 → same_files x1 x3.
Proof. intros [Ha Hb] [Ha' Hb']. split; [by etrans | eauto]. Qed.

Lemma dirs_added_same_files x x' : dirs_added x x' → same_files x x'.
Proof.
  intros [Hsub Hdir]. split.
  - unfold files. f_equiv. f_equiv. apply map_eq. intros q.
    rewrite !lookup_omap. destruct (x !! q) as [n|] eqn:Hq.
    + by rewrite (lookup_weaken _ _ _ _ Hq Hsub).
    + destruct (x' !! q) as [n|] eqn:Hq'; [|done].
      by rewrite (Hdir q n Hq' Hq).
  - intros q Hq. by eapply lookup_weaken.
Qed.

Lemma validatedirectory_same_files directory st b st1 :
  validatedirectory W directory st = (b, st1) → same_files (fs st) (fs st1).
Proof.
  intros (_ & _ & Hadd & _)%validatedirectory_effect.
  by apply dirs_added_same_files.
Qed.

(** A rename of a regular file to a free path keeps the files. *)
Lemma rename_same_files x src dst f :
  x !! src = Some (Regular f) → x !! dst = None →
  same_files x (<[dst := Regular f]> (delete src x)).
Proof.
  intros Hsrc Hdst. assert (Hne : dst ≠ src) by congruence. split.
  - unfold files. rewrite omap_insert_Some with (y := f) by done.
    rewrite omap_delete.
    rewrite map_to_list_insert.
    2: { rewrite lookup_delete_ne by done. by rewrite lookup_omap, Hdst. }
    rewrite <- (map_to_list_delete (omap regular_of x) src f).
    2: { by rewrite lookup_omap, Hsrc. }
    done.
  - intros q Hq. rewrite lookup_insert_ne by congruence.
    rewrite lookup_delete_ne; [done | congruence].
Qed.

Lemma copyfile_same_files absolutepath filename library librarypath st :
  os_path_isfile (fs st) absolutepath = true →
  same_files (fs st)
    (fs (res_state (copyfile W absolutepath filename library librarypath st))).
Proof.
  intros [f Hf]%isfile_stat.
  destruct (copyfile_cases W absolutepath filename library librarypath st)
    as (b & st1 & Hv & Hc).
  pose proof (validatedirectory_same_files _ _ _ _ Hv) as Hsame.
  apply validatedirectory_grows in Hv as (Hsub & _ & _).
  destruct Hc as [(_ & ->)|[(_ & e & ->)|[(_ & p & ->)|[(_ & p & ->)|
    (_ & p & n & pl & _ & Hex & Hn & Hp & ->)]]]]; simpl; try done.
  apply (same_files_trans _ (fs st1)); [done|].
  apply stat_Some in Hf as [Ha Hf], Hn as [_ Hn].
  assert (n = Regular f) as ->.
  { eapply lookup_weaken in Hf; [|exact Hsub]. congruence. }
  assert (Hfree : fs st1 !! p = None).
  { unfold os_path_exists in Hex. rewrite stat_lookup in Hex by done.
    by destruct (fs st1 !! p). }
  by apply rename_same_files.
Qed.

Lemma import_item_keeps directory library item :
  keeps (import_item W directory library item).
Proof.
  intros st. unfold import_item.
  set (absolutepath := os_path_join W directory item).
  destruct (os_path_isfile (fs st) absolutepath) eqn:Hfile; simpl;
    [|apply same_files_refl].
  pose proof (hashfile_fs absolutepath st) as Hfs.
  destruct (hashfile W absolutepath st) as [[|d] st0|e st0]; simpl in *;
    try (rewrite Hfs; apply same_files_refl).
  rewrite <- Hfs in *.
  destruct (Str.endswith item ".mp4").
  - unfold copyvideo. destruct (vidregex_match item) as [g|];
      [|apply same_files_refl].
    unfold bind, ret.
    pose proof (copyfile_same_files absolutepath item
                  (os_path_join W library (date_path g)) (date_path g) st0
                  Hfile) as Hs.
    by destruct (copyfile W _ _ _ _ st0).
  - unfold import_image.
    destruct (open_rb W (fs st0) absolutepath); [|apply same_files_refl].
    destruct (image_metadata _) as [g|]; [|apply same_files_refl].
    unfold copyimage, bind, ret.
    pose proof (copyfile_same_files absolutepath item
                  (os_path_join W library (date_path g)) (date_path g) st0
                  Hfile) as Hs.
    by destruct (copyfile W _ _ _ _ st0).
Qed.

Lemma keeps_ret {A} (a : A) : keeps (ret a).
Proof. intros st. apply same_files_refl. Qed.

Lemma keeps_bind {A B} (c : M A) (k : A → M B) :
  keeps c → (∀ a, keeps (k a)) → keeps (bind c k).
Proof.
  intros Hc Hk st. unfold bind. specialize (Hc st).
  destruct (c st) as [a st1|e st1]; simpl in *; [|done].
  eapply same_files_trans; [exact Hc | apply Hk].
Qed.

Lemma import_items_keeps directory library items :
  keeps (import_items W directory library items).
Proof.
  induction items as [|item rest IH]; simpl; [apply keeps_ret|].
  apply keeps_bind; [apply import_item_keeps|]. intros t.
  apply keeps_bind; [done|]. intros ts. apply keeps_ret.
Qed.

Lemma importfolder_keeps directory library :
  keeps (importfolder W directory library).
Proof.
  intros st. unfold importfolder.
  destruct (os_listdir W (fs st) directory); [|apply same_files_refl].
  apply import_items_keeps.
Qed.

Lemma import_roots_keeps library roots : keeps (import_roots W library roots).
Proof.
  induction roots as [|root rest IH]; simpl; [apply keeps_ret|].
  apply keeps_bind; [apply importfolder_keeps|]. intros ts.
  apply keeps_bind; [done|]. intros ts'. apply keeps_ret.
Qed.

Lemma import_folders_keeps args directories :
  keeps (import_folders W args directories).
Proof.
  induction directories as [|directory rest IH]; simpl; [apply keeps_ret|].
  apply keeps_bind.
  - destruct (recursive args); [|apply importfolder_keeps].
    intros st. apply import_roots_keeps.
  - intros ts. apply keeps_bind; [done|]. intros ts'. apply keeps_ret.
Qed.

(** X12: a run loses, copies and makes up no file, also when it ends in an
    exception: the regular files afterwards are those there were before,
    bytes and modification time, each as many times as before and perhaps
    under another path; and every directory is where it was. *)
Theorem main_keeps_files args st :
  same_files (fs st) (fs (res_state (main W args st))).
Proof.
  unfold main. case_decide; [apply same_files_refl|].
  destruct (forallb _ _); simpl; [|apply same_files_refl].
  apply (keeps_bind (import_folders W args (folders args))).
  - apply import_folders_keeps.
  - intros ts st'. apply same_files_refl.
Qed.

End Runs.

(** ** Where a file goes, and what [main] reports *)

Section Report.

Context (W : World).

Implicit Types (st : State) (x : FS).

Lemma copyfile_target absolutepath filename library librarypath st pl st' :
  copyfile W absolutepath filename library librarypath st = Ok pl st' →
  match pl with
  | Moved p => p = os_path_join W library filename
  | RenamedMoved p =>
      ∃ k name, (1 ≤ k)%nat ∧ candidate filename k = Some name
                ∧ p = os_path_join W library name
  | _ => True
  end.
Proof.
  unfold copyfile.
  destruct (validatedirectory W library st) as [[] st1]; [|by intros [= <- _]].
  destruct (copyfile_loop _ _ _ _ _ _ _ _) as [p i|p|e] eqn:Hloop;
    [|by intros [= <- _]|done].
  destruct (os_rename W (fs st1) absolutepath p); [|by intros [= <- _]].
  intros [= <- _].
  apply (loop_free_shape W) in Hloop as [[-> ->]|(Hlt & _ & _ & Hname & _)].
  - by rewrite decide_True.
  - rewrite decide_False by lia. destruct Hname as (name & Hname & ->).
    exists (i - 1)%nat, name. split_and!; [lia | done | done].
Qed.

Lemma copyfile_moved_node absolutepath filename library librarypath st pl st' n :
  copyfile W absolutepath filename library librarypath st = Ok pl st' →
  moved (Placed pl) = true → stat (fs st) absolutepath = Some n →
  ∃ p, (pl = Moved p ∨ pl = RenamedMoved p)
       ∧ fs st' !! p = Some n ∧ fs st' !! absolutepath = None.
Proof.
  intros Hrun Hmv Hn.
  destruct (copyfile_cases W absolutepath filename library librarypath st)
    as (b & st1 & Hv & Hc).
  apply validatedirectory_grows in Hv as (Hsub & _ & _).
  destruct Hc as [(_ & Hr)|[(_ & e & Hr)|[(_ & q & Hr)|[(_ & q & Hr)|
    (_ & p & m & pl' & Hpl & Hex & Hm & Hp & Hr)]]]];
    rewrite Hr in Hrun; try done; try (injection Hrun as <- <-; done).
  injection Hrun as <- <-. exists p. simpl.
  apply stat_Some in Hn as [Ha Hn], Hm as [_ Hm].
  eapply lookup_weaken in Hn; [|exact Hsub].
  assert (m = n) as -> by congruence.
  assert (p ≠ absolutepath).
  { intros ->. unfold os_path_exists in Hex.
    rewrite stat_lookup in Hex by done. by rewrite Hm in Hex. }
  split_and!; [done | by rewrite lookup_insert_eq |].
  rewrite lookup_insert_ne by done. by rewrite lookup_delete_eq.
Qed.

Lemma image_metadata_date tag g : image_metadata tag = Some g → is_date g.
Proof.
  destruct tag as [value|]; [|done]. simpl.
  by intros [? _]%dateregex_sound.
Qed.

(** X13: a file that is moved goes into the directory of its date, under its
    own name or its name with a suffix: the date is a year of four digits
    and a month and a day of two, resolved from the name if it ends in
    [.mp4] and from the tag otherwise; the directory is the library joined
    with [year\month\day]; and the file is there afterwards, bytes and
    modification time as before, and no longer in the source folder. *)
Theorem import_item_destination directory library item st pl st' :
  import_item W directory library item st = Ok (Placed pl) st' →
  moved (Placed pl) = true →
  let absolutepath := os_path_join W directory item in
  ∃ f g p,
    stat (fs st) absolutepath = Some (Regular f)
    ∧ resolve_date W item (content f) = Some g ∧ is_date g
    ∧ ((pl = Moved p
        ∧ p = os_path_join W (os_path_join W library (date_path g)) item)
       ∨ (pl = RenamedMoved p
          ∧ ∃ k name, (1 ≤ k)%nat ∧ candidate item k = Some name
              ∧ p = os_path_join W (os_path_join W library (date_path g))
                      name))
    ∧ fs st' !! p = Some (Regular f)
    ∧ fs st' !! absolutepath = None.
Proof.
  intros Hrun Hmv absolutepath. unfold import_item in Hrun.
  fold absolutepath in Hrun.
  destruct (os_path_isfile (fs st) absolutepath) eqn:Hfile; simpl in Hrun;
    [|done].
  destruct (hashfile W absolutepath st) as [[|d] st0|e st0] eqn:Hh;
    try done.
  apply hashfile_unique_inv in Hh as (Hfs & _ & data & Hopen & _).
  apply open_rb_Some in Hopen as (f & Hf & Hread & ->).
  assert (Hplace : ∀ g,
    resolve_date W item (content f) = Some g → is_date g →
    bind (copyfile W absolutepath item (os_path_join W library (date_path g))
            (date_path g)) (fun p => ret (Placed p)) st0
    = Ok (Placed pl) st' →
    ∃ f g p,
      stat (fs st) absolutepath = Some (Regular f)
      ∧ resolve_date W item (content f) = Some g ∧ is_date g
      ∧ ((pl = Moved p
          ∧ p = os_path_join W (os_path_join W library (date_path g)) item)
         ∨ (pl = RenamedMoved p
            ∧ ∃ k name, (1 ≤ k)%nat ∧ candidate item k = Some name
                ∧ p = os_path_join W (os_path_join W library (date_path g))
                        name))
      ∧ fs st' !! p = Some (Regular f)
      ∧ fs st' !! absolutepath = None).
  { intros g Hg Hdate Hc. unfold bind, ret in Hc.
    destruct (copyfile W _ _ _ _ st0) as [pl0 st1|] eqn:Hcopy; [|done].
    injection Hc as -> ->.
    pose proof (copyfile_target _ _ _ _ _ _ _ Hcopy) as Ht.
    rewrite <- Hfs in Hf.
    destruct (copyfile_moved_node _ _ _ _ _ _ _ _ Hcopy Hmv Hf)
      as (p & Hpl & Hp & Ha).
    rewrite Hfs in Hf. exists f, g, p.
    split_and!; try done.
    destruct Hpl as [-> | ->]; [left | right]; (split; [done|]).
    - exact Ht.
    - destruct Ht as (k & name & ? & ? & ->). eauto. }
  unfold resolve_date in *.
  destruct (Str.endswith item ".mp4").
  - unfold copyvideo in Hrun.
    destruct (vidregex_match item) as [g|] eqn:Hg; [|done].
    apply (Hplace g eq_refl); [|done]. by apply vidregex_sound in Hg as [? _].
  - unfold import_image in Hrun. rewrite Hfs in Hrun.
    replace (open_rb W (fs st) absolutepath) with (Some (content f)) in Hrun
      by (symmetry; apply open_rb_Some; eauto).
    destruct (image_metadata _) as [g|] eqn:Hg; [|done].
    apply (Hplace g eq_refl); [|done]. by eapply image_metadata_date.
Qed.

Lemma tally_moved_registered ts :
  (tally moved ts ≤ tally registered ts)%nat
  ∧ (tally registered ts ≤ length ts)%nat.
Proof.
  induction ts as [|t ts [IH1 IH2]]; [done|].
  rewrite !tally_cons. simpl.
  destruct t as [| | |[]]; simpl; lia.
Qed.

(** X15: the closing line of a run never reports more files copied than unique
    files found, nor more unique files than entries looked at. *)
Theorem main_summary_bounds args x ts unique copied st' :
  main W args (initial x) = Ok (ts, Summary unique copied) st' →
  (copied ≤ unique)%nat ∧ (unique ≤ length ts)%nat.
Proof.
  unfold main. case_decide; [done|].
  destruct (forallb _ _); simpl; [|done]. unfold bind.
  pose proof (import_folders_run W args (folders args) (initial x)
                (initial_registry_ok x)) as (_ & _ & Hr).
  destruct (import_folders W args (folders args) (initial x)) as [ts0 st0|];
    [|done].
  intros [= <- <- <- <-]. simpl in Hr. rewrite map_size_empty in Hr.
  pose proof (tally_moved_registered ts0). lia.
Qed.

End Report.

Lemma is_digits_app_inj n a a' b b' :
  is_digits n a → is_digits n a' → a +:+ b = a' +:+ b' → a = a' ∧ b = b'.
Proof.
  revert a a'. induction n as [|n IH]; simpl.
  - by intros a a' -> ->.
  - intros a a' (c & d & -> & Hc & Hd) (c' & d' & -> & Hc' & Hd').
    rewrite !sapp_assoc. intros H.
    pose proof (one_app _ c (d +:+ b) Hc) as H1.
    pose proof (one_app _ c' (d' +:+ b') Hc') as H2.
    rewrite H, H2 in H1. injection H1 as -> H1.
    by destruct (IH _ _ Hd Hd' (eq_sym H1)) as [-> ->].
Qed.

(** X16: files of different dates never share a directory name: on the dates
    the two patterns deliver, the formatting [year\month\day] is
    one to one. *)
Theorem date_path_inj g g' :
  is_date g → is_date g' → date_path g = date_path g' → g = g'.
Proof.
  intros (Hy & Hm & _) (Hy' & Hm' & _).
  unfold date_path. destruct g as [y m d], g' as [y' m' d']. simpl in *.
  intros H.
  apply (is_digits_app_inj 4) in H as [-> H]; [|done..].
  apply (inj (String.app "\")) in H.
  apply (is_digits_app_inj 2) in H as [-> H]; [|done..].
  by apply (inj (String.app "\")) in H as ->.
Qed.

(** ** The further theorems at concrete folders *)

Lemma chunkreader_whole_witness :
  join_chunks (chunkreader "abcdefg" 3) = "abcdefg".
Proof. apply (proj1 (chunkreader_whole "abcdefg" 3)). lia. Defined.

Lemma chunkreader_sizes_witness :
  "abc" ≠ ""
  ∧ (String.length "abc" ≤ 3)%nat
  ∧ ((1 < length (chunkreader "abcdefg" 3))%nat → String.length "abc" = 3).
Proof.
  apply (proj1 (chunkreader_sizes "abcdefg" 3) 0 "abc"). reflexivity.
Defined.

Lemma hashfile_again_witness :
  let W := Demo.W_one_video in
  let path := "/src/VID_20230401_001.mp4" in
  let st1 := set_hashes (initial Demo.one_video) {[ ("moov", 4) := path ]} in
  hashfile W path st1 = Ok (Duplicate path) st1.
Proof.
  intros W path st1.
  destruct (hashfile_again W path (initial Demo.one_video) st1 eq_refl)
    as (_ & _ & _ & H).
  exact H.
Defined.


Lemma copyfile_moved_witness :
  let W := Demo.W_one_video in
  let st := initial Demo.one_video in
  let r := copyfile W "/src/VID_20230401_001.mp4" Demo.video "/lib/2023\04\01"
             "2023\04\01" st in
  fs (res_state r) !! "/lib/2023\04\01/VID_20230401_001.mp4"
  = Some (Demo.regular "moov" 1)
  ∧ fs (res_state r) !! "/src/VID_20230401_001.mp4" = None
  ∧ copycount (res_state r) = 1.
Proof.
  intros W st r.
  assert (Hr : r = Ok (Moved "/lib/2023\04\01/VID_20230401_001.mp4")
                    (res_state r)) by (vm_compute; reflexivity).
  destruct (copyfile_moved W _ _ _ _ _ _ _ Hr eq_refl)
    as (p & n & Hpl & _ & Hn & _ & _ & Hp & Ha & Hc & _).
  destruct Hpl as [[= <-]|[=]].
  vm_compute in Hn. injection Hn as <-.
  exact (conj Hp (conj Ha Hc)).
Defined.

Lemma copyfile_overwrites_nothing_witness :
  fs (res_state (copyfile Demo.W_two_dots "/src/a.b.jpg" "a.b.jpg"
                   "/lib/2022\12\25" "2022\12\25" (initial Demo.two_dots)))
  !! "/lib/2022\12\25/a.b.jpg"
  = Some (Demo.regular (Demo.jpeg "older") 1).
Proof.
  apply copyfile_overwrites_nothing; [discriminate | reflexivity].
Defined.

Lemma copyfile_first_free_witness :
  os_path_exists Demo.two_dots "/lib/2022\12\25/a-1.b" = false
  ∧ os_path_exists Demo.two_dots "/lib/2022\12\25/a.b.jpg" = true.
Proof.
  destruct (copyfile_first_free Demo.W_two_dots 7 Demo.two_dots "/src/a.b.jpg"
              "a.b.jpg" "/lib/2022\12\25" "/lib/2022\12\25/a.b.jpg"
              "/lib/2022\12\25/a-1.b" 2 eq_refl)
    as (Hfree & _ & _ & Htaken & _).
  destruct (Htaken ltac:(lia)) as [Htaken' _].
  exact (conj Hfree Htaken').
Defined.

Lemma copyfile_loop_ends_witness :
  copyfile_loop Demo.W_two_dots 100 Demo.two_dots "/src/a.b.jpg" "a.b.jpg"
    "/lib/2022\12\25" "/lib/2022\12\25/a.b.jpg" 1
  ≠ Fault LoopBound.
Proof.
  apply (copyfile_loop_ends Demo.W_two_dots 100 Demo.two_dots).
  - intros base ext i j. apply posixpath_join_renamed_inj.
  - vm_compute. lia.
Defined.

Lemma copyfile_index_error_witness :
  copyfile Demo.W_no_dot "/src/IMG0001" "IMG0001" "/lib/2022\12\25"
    "2022\12\25" (initial Demo.no_dot)
  = Raise IndexError (initial Demo.no_dot).
Proof.
  apply copyfile_index_error; try reflexivity.
  intros a b H. pose proof (split_dot a b) as Hlen.
  rewrite <- H in Hlen. vm_compute in Hlen. lia.
Defined.

Lemma import_item_again_witness :
  let W := Demo.W_twins in
  let st1 := set_hashes (initial Demo.twins)
               {[ ("moov", 4) := "/src/clip.mp4" ]} in
  import_item W "/src" "/lib" "clip.mp4" st1
  = Ok (DuplicateSkipped "/src/clip.mp4") st1.
Proof.
  intros W st1.
  apply (import_item_again W "/src" "/lib" "clip.mp4" (initial Demo.twins)
           MissingSkipped st1 (initial_registry_ok _) eq_refl eq_refl eq_refl).
Defined.

Lemma import_item_destination_witness :
  let W := Demo.W_one_video in
  let st := initial Demo.one_video in
  let r := import_item W "/src" "/lib" Demo.video st in
  ∃ f g p,
    stat (fs st) "/src/VID_20230401_001.mp4" = Some (Regular f)
    ∧ resolve_date W Demo.video (content f) = Some g ∧ is_date g
    ∧ ((Moved "/lib/2023\04\01/VID_20230401_001.mp4" = Moved p
        ∧ p = posixpath_join (posixpath_join "/lib" (date_path g)) Demo.video)
       ∨ (Moved "/lib/2023\04\01/VID_20230401_001.mp4" = RenamedMoved p
          ∧ ∃ k name, (1 ≤ k)%nat ∧ candidate Demo.video k = Some name
              ∧ p = posixpath_join (posixpath_join "/lib" (date_path g)) name))
    ∧ fs (res_state r) !! p = Some (Regular f)
    ∧ fs (res_state r) !! "/src/VID_20230401_001.mp4" = None.
Proof.
  intros W st r.
  assert (Hr : r = Ok (Placed (Moved "/lib/2023\04\01/VID_20230401_001.mp4"))
                    (res_state r)) by (vm_compute; reflexivity).
  exact (import_item_destination W "/src" "/lib" Demo.video st _ _ Hr eq_refl).
Defined.

Lemma main_summary_bounds_witness : (1 ≤ 1)%nat ∧ (1 ≤ 1)%nat.
Proof.
  apply (main_summary_bounds Demo.W_one_video (Demo.args "/src")
           Demo.one_video
           [Placed (Moved "/lib/2023\04\01/VID_20230401_001.mp4")] 1 1
           (res_state (main Demo.W_one_video (Demo.args "/src")
                         (initial Demo.one_video)))).
  vm_compute. reflexivity.
Defined.

Lemma date_path_inj_witness :
  {| year := "2023"; month := "04"; day := "01" |}
  = {| year := "2023"; month := "04"; day := "01" |}.
Proof.
  apply date_path_inj; try reflexivity;
    (split_and!; apply digits_is_digits; reflexivity).
Defined.
